(** * Scrapy: reactor utilities and the memory-usage extension

    A shallow embedding of [scrapy/utils/reactor.py] and
    [scrapy/extensions/memusage.py], followed by the properties the
    specification states about them.

    Python values are modelled as the code uses them: [int] as [Z],
    [str] as [string], lists as [list], the statistics collector as a
    finite map from keys to numbers, exceptions as a value of [exn]
    carried by [result]. *)

From stdpp Require Import base numbers list strings gmap pretty.

Open Scope Z_scope.

(** ** Python exceptions and results *)

(** The exception classes the two files raise or catch. [CannotListenError]
    carries the interface and the port, as twisted's does. [OtherError]
    stands for any exception class the code neither raises nor catches
    by name. *)
Inductive exn : Type :=
  | ValueError (msg : string)
  | RuntimeError (msg : string)
  | TypeError (msg : string)
  | ImportError (path : string)
  | CannotListenError (interface : string) (port : Z)
  | ReactorAlreadyInstalledError
  | NotConfigured
  | OtherError (tag : string).

Inductive result (A : Type) : Type :=
  | Return (a : A)
  | Raise (e : exn).
Arguments Return {A} a.
Arguments Raise {A} e.

#[global] Instance exn_eq_dec : EqDecision exn.
Proof. solve_decision. Defined.

(** [repr] of a list of ints, as an f-string prints it: [[8000, 8002]]. *)
Fixpoint repr_ints_tail (xs : list Z) : string :=
  match xs with
  | [] => EmptyString
  | x :: xs' => ", " +:+ pretty x +:+ repr_ints_tail xs'
  end.

Definition repr_ints (xs : list Z) : string :=
  match xs with
  | [] => "[]"
  | x :: xs' => "[" +:+ pretty x +:+ repr_ints_tail xs' +:+ "]"
  end.

(** ** Stateful code that may raise

    A function that reads and writes a state [S] and either returns or
    raises: the state it leaves is the one reached when it returned or
    raised. *)
Definition M (S A : Type) : Type := S -> result A * S.

Definition ret {S A} (a : A) : M S A := fun s => (Return a, s).

Definition raise {S A} (e : exn) : M S A := fun s => (Raise e, s).

Definition bind {S A B} (m : M S A) (k : A -> M S B) : M S B :=
  fun s => match m s with
           | (Return a, s') => k a s'
           | (Raise e, s') => (Raise e, s')
           end.

Definition get {S} : M S S := fun s => (Return s, s).

Definition modify {S} (f : S -> S) : M S unit := fun s => (Return tt, f s).

(** [with suppress(E): body], for the exceptions [handled] accepts. *)
Definition suppress {S} (handled : exn -> bool) (body : M S unit) : M S unit :=
  fun s => match body s with
           | (Raise e, s') => if handled e then (Return tt, s')
                              else (Raise e, s')
           | r => r
           end.

(** [try: body / except E: handler]. *)
Definition try_except {S A} (body : M S A) (handled : exn -> bool)
    (handler : M S A) : M S A :=
  fun s => match body s with
           | (Raise e, s') => if handled e then handler s'
                              else (Raise e, s')
           | r => r
           end.

Notation "'do' x <- m ;; k" := (bind m (fun x => k))
  (at level 10, x name, m at level 99, k at level 200).

(** ** scrapy/utils/reactor.py: [listen_tcp] *)

Module listen.

(** A listening port as [reactor.listenTCP] returns it. *)
Record Port : Type := mkPort { port_number : Z; port_interface : string }.

#[global] Instance Port_eq_dec : EqDecision Port.
Proof. solve_decision. Defined.

Section ListenTcp.

(** The server factory is only passed through. *)
Variable ServerFactory : Type.

(** [reactor.listenTCP(port, factory, interface=host)]: what one bind
    attempt does.  [listen_tcp] tries each port at most once and stops at
    the first success, so one outcome per port describes the reactor for
    the whole call. *)
Variable listenTCP : Z -> ServerFactory -> string -> result Port.

(** [range(lo, stop)] *)
Definition py_range (lo stop : Z) : list Z := seqZ lo (stop - lo).

(** The [for x in range(...)] loop with its [try]/[except].  The first
    component is the list of ports on which a bind was attempted, oldest
    first; the second is what the function does: return the port, raise,
    or fall off the end of the function ([Return None]). *)
Fixpoint listen_loop (xs : list Z) (last : Z) (host : string)
    (factory : ServerFactory) (tried : list Z)
    : list Z * result (option Port) :=
  match xs with
  | [] => (tried, Return None)
  | x :: xs' =>
      match listenTCP x factory host with
      | Return p => (tried ++ [x], Return (Some p))
      | Raise (CannotListenError i p) =>
          if decide (x = last)
          then (tried ++ [x], Raise (CannotListenError i p))
          else listen_loop xs' last host factory (tried ++ [x])
      | Raise e => (tried ++ [x], Raise e)
      end
  end.

Definition attempt (x : Z) (host : string) (factory : ServerFactory)
    : list Z * result (option Port) :=
  ([x], match listenTCP x factory host with
        | Return p => Return (Some p)
        | Raise e => Raise e
        end).

Definition listen_tcp (portrange : list Z) (host : string)
    (factory : ServerFactory) : list Z * result (option Port) :=
  if decide (2 < length portrange)%nat then
    ([], Raise (ValueError ("invalid portrange: " +:+ repr_ints portrange)))
  else
    match portrange with
    | [] => attempt 0 host factory
    | [p0] => attempt p0 host factory
    | p0 :: p1 :: _ =>
        listen_loop (py_range p0 (p1 + 1)) p1 host factory []
    end.

End ListenTcp.

(** A reactor for examples: a port binds unless it is occupied; port 0
    asks the system for a free port, here the one above every occupied
    one. *)
Definition free_port (occupied : list Z) : Z := 1 + foldr Z.max 1023 occupied.

Definition listenTCP_on (occupied : list Z) (x : Z) (_ : unit) (host : string)
    : result Port :=
  if decide (x = 0) then Return (mkPort (free_port occupied) host)
  else if decide (x ∈ occupied) then Raise (CannotListenError host x)
  else Return (mkPort x host).

(** The same reactor with the range check of the socket: a port above
    65535 is rejected with an error that is not a [CannotListenError]. *)
Definition listenTCP_checked (occupied : list Z) (x : Z) (u : unit)
    (host : string) : result Port :=
  if decide (65535 < x) then Raise (OtherError "OverflowError")
  else listenTCP_on occupied x u host.

End listen.

(** ** scrapy/utils/reactor.py: [CallLaterOnce] *)

Module once.

(** What a delayed call runs when it is due: the [CallLaterOnce] instance
    itself ([call_later(delay, self)]) or the [callback] of the Deferred a
    [wait()] created ([call_later(0, d.callback, None)]). *)
Inductive callee : Type :=
  | CallSelf
  | CallCallback (d : nat).

#[global] Instance callee_eq_dec : EqDecision callee.
Proof. solve_decision. Defined.

(** A delayed call pending in the reactor. The handle identifies the
    [CallLaterResult] that [call_later] returned for it. *)
Record DelayedCall : Type :=
  mkDelayed { dc_handle : nat; dc_time : Z; dc_callee : callee }.

#[global] Instance DelayedCall_eq_dec : EqDecision DelayedCall.
Proof. solve_decision. Defined.

(** No delayed call of the queue invokes the instance. *)
Definition no_self_call (q : list DelayedCall) : Prop :=
  Forall (fun dc => dc_callee dc <> CallSelf) q.

(** What the wrapped callable may ask of its own [CallLaterOnce] while it
    runs. *)
Inductive request : Type :=
  | ReqSchedule (delay : Z)
  | ReqCancel
  | ReqWait.

Section CallLaterOnce.

(** Positional arguments, keyword arguments and result of the callable. *)
Context {Args Kwargs T : Type}.

(** One run of the callable: the requests it makes on the instance, in
    order, and how it ends. *)
Record behaviour : Type :=
  mkBehaviour { requests : list request; outcome : result T }.

(** The instance attributes of [__init__] (with their names), the reactor
    the instance schedules on (clock, pending delayed calls, next handle),
    and what an observer sees: the invocations of the callable with their
    arguments, the Deferreds whose callback ran, and the errors that
    reached the reactor.  The callable's [n]-th run (from 0) with
    arguments [a], [kw] is [_func n a kw]. *)
Record state : Type := mkState {
  _func : nat -> Args -> Kwargs -> behaviour;
  _a : Args;
  _kw : Kwargs;
  _call : option nat;
  _deferreds : list nat;
  seconds : Z;
  delayed : list DelayedCall;
  next_handle : nat;
  next_deferred : nat;
  calls : list (Args * Kwargs);
  resolved : list nat;
  errors : list exn }.

Definition set_call (c : option nat) (st : state) : state :=
  mkState (_func st) (_a st) (_kw st) c (_deferreds st) (seconds st)
    (delayed st) (next_handle st) (next_deferred st) (calls st)
    (resolved st) (errors st).

Definition set_deferreds (ds : list nat) (st : state) : state :=
  mkState (_func st) (_a st) (_kw st) (_call st) ds (seconds st)
    (delayed st) (next_handle st) (next_deferred st) (calls st)
    (resolved st) (errors st).

Definition set_delayed (q : list DelayedCall) (st : state) : state :=
  mkState (_func st) (_a st) (_kw st) (_call st) (_deferreds st)
    (seconds st) q (next_handle st) (next_deferred st) (calls st)
    (resolved st) (errors st).

(** The constructor, with [func], [a] and [kw], on a reactor whose clock
    shows [now] and that has nothing pending. *)
Definition __init__ (func : nat -> Args -> Kwargs -> behaviour)
    (a : Args) (kw : Kwargs) (now : Z) : state :=
  mkState func a kw None [] now [] 0 0 [] [] [].

(** Modelled from the spec: [call_later] of [scrapy/utils/asyncio.py],
    which is not among the sources: it schedules the callable to run
    after [delay] and returns a handle that can cancel it. *)
Definition call_later (delay : Z) (f : callee) (st : state) : nat * state :=
  let h := next_handle st in
  (h, mkState (_func st) (_a st) (_kw st) (_call st) (_deferreds st)
        (seconds st)
        (delayed st ++ [mkDelayed h (seconds st + delay) f])
        (S h) (next_deferred st) (calls st) (resolved st) (errors st)).

(** Modelled from the spec: [CallLaterResult.cancel] of
    [scrapy/utils/asyncio.py]: if the invocation is pending, cancel it;
    no-op otherwise.  Cancelling only prevents future firings. *)
Definition cancel_handle (h : nat) (st : state) : state :=
  set_delayed (filter (fun dc => dc_handle dc <> h) (delayed st)) st.

Definition schedule (delay : Z) (st : state) : state :=
  match _call st with
  | None => let '(h, st') := call_later delay CallSelf st in
            set_call (Some h) st'
  | Some _ => st
  end.

Definition cancel (st : state) : state :=
  match _call st with
  | Some h => cancel_handle h st
  | None => st
  end.

(** [wait()] up to its [await]: a new Deferred is appended to
    [_deferreds]; the coroutine resumes when its callback runs. *)
Definition wait (st : state) : state :=
  let d := next_deferred st in
  mkState (_func st) (_a st) (_kw st) (_call st) (_deferreds st ++ [d])
    (seconds st) (delayed st) (next_handle st) (S d) (calls st)
    (resolved st) (errors st).

Definition serve (r : request) (st : state) : state :=
  match r with
  | ReqSchedule delay => schedule delay st
  | ReqCancel => cancel st
  | ReqWait => wait st
  end.

(** [result = self._func(...)] with the bound [_a] and [_kw]: the
    invocation is logged, and the requests the callable makes are served
    on the state it runs in. *)
Definition invoke (st : state) : result T * state :=
  let b := _func st (length (calls st)) (_a st) (_kw st) in
  let st1 :=
    mkState (_func st) (_a st) (_kw st) (_call st) (_deferreds st)
      (seconds st) (delayed st) (next_handle st) (next_deferred st)
      (calls st ++ [(_a st, _kw st)]) (resolved st) (errors st) in
  (outcome b, foldl (fun s r => serve r s) st1 (requests b)).

(** [for d in self._deferreds: call_later(0, d.callback, None)] *)
Definition release (ds : list nat) (st : state) : state :=
  foldl (fun s d => snd (call_later 0 (CallCallback d) s)) st ds.

Definition __call__ (st : state) : result T * state :=
  let st1 := set_call None st in
  match invoke st1 with
  | (Raise e, st2) => (Raise e, st2)
  | (Return v, st2) =>
      let st3 := release (_deferreds st2) st2 in
      (Return v, set_deferreds [] st3)
  end.

(** *** The reactor *)

(** The pending delayed call that is due first; among equal times the one
    scheduled first. *)
Fixpoint earliest (q : list DelayedCall) : option DelayedCall :=
  match q with
  | [] => None
  | dc :: q' =>
      match earliest q' with
      | Some dc' => if decide (dc_time dc <= dc_time dc') then Some dc
                    else Some dc'
      | None => Some dc
      end
  end.

(** The reactor runs one delayed call: it leaves the queue, the clock
    reaches its time, its callee runs.  An exception of the callee goes
    to the reactor's error log and the reactor carries on. *)
Definition run_delayed (dc : DelayedCall) (st : state) : state :=
  let st1 :=
    mkState (_func st) (_a st) (_kw st) (_call st) (_deferreds st)
      (Z.max (seconds st) (dc_time dc))
      (filter (fun x => dc_handle x <> dc_handle dc) (delayed st))
      (next_handle st) (next_deferred st) (calls st) (resolved st)
      (errors st) in
  match dc_callee dc with
  | CallSelf =>
      match __call__ st1 with
      | (Return _, st2) => st2
      | (Raise e, st2) =>
          mkState (_func st2) (_a st2) (_kw st2) (_call st2)
            (_deferreds st2) (seconds st2) (delayed st2) (next_handle st2)
            (next_deferred st2) (calls st2) (resolved st2)
            (errors st2 ++ [e])
      end
  | CallCallback d =>
      mkState (_func st1) (_a st1) (_kw st1) (_call st1) (_deferreds st1)
        (seconds st1) (delayed st1) (next_handle st1) (next_deferred st1)
        (calls st1) (resolved st1 ++ [d]) (errors st1)
  end.

Definition run_next (st : state) : state :=
  match earliest (delayed st) with
  | Some dc => run_delayed dc st
  | None => st
  end.

(** *** Histories *)

(** What can happen to an instance: its methods are called, it is
    invoked directly, or the reactor runs its next delayed call. *)
Inductive event : Type :=
  | EvSchedule (delay : Z)
  | EvCancel
  | EvWait
  | EvCall
  | EvReactor.

Definition step (st : state) (ev : event) : state :=
  match ev with
  | EvSchedule delay => schedule delay st
  | EvCancel => cancel st
  | EvWait => wait st
  | EvCall => snd (__call__ st)
  | EvReactor => run_next st
  end.

Definition run (evs : list event) (st : state) : state := foldl step st evs.

(** The delayed calls of the queue that will invoke the instance. *)
Definition self_calls (st : state) : list DelayedCall :=
  filter (fun dc => dc_callee dc = CallSelf) (delayed st).

(** Nothing is pending for the instance. *)
Definition idle (st : state) : Prop :=
  _call st = None /\ self_calls st = [].

(** Every waiter of [ds] has its callback scheduled with delay 0. *)
Definition released (ds : list nat) (st : state) : Prop :=
  forall d, d ∈ ds ->
    exists h, mkDelayed h (seconds st) (CallCallback d) ∈ delayed st.

(** The Deferreds whose callback is scheduled and has not run yet. *)
Definition callbacks (q : list DelayedCall) : list nat :=
  omap (fun dc => match dc_callee dc with
                  | CallCallback d => Some d
                  | CallSelf => None
                  end) q.

(** The marker and the queue agree: without marker no delayed call invokes
    the instance; with a marker at most one does, the one the marker
    holds.  Handles are handed out in increasing order. *)
Definition coalesced (st : state) : Prop :=
  Forall (fun dc => (dc_handle dc < next_handle st)%nat) (delayed st)
  /\ match _call st with
     | None => self_calls st = []
     | Some h => (h < next_handle st)%nat
                 /\ (self_calls st = []
                     \/ exists t, self_calls st = [mkDelayed h t CallSelf])
     end.


End CallLaterOnce.

Arguments behaviour : clear implicits.
Arguments state : clear implicits.

#[global] Instance event_eq_dec : EqDecision event.
Proof. solve_decision. Defined.

(** A callable for examples: arguments and result are numbers, the callable
    raises when its argument is negative, otherwise returns it; on its
    first run with a positive argument it reschedules itself. *)
Definition sample_func (n : nat) (a : Z) (kw : unit) : behaviour Z :=
  if decide (a < 0) then mkBehaviour [] (Raise (OtherError "boom"))
  else if decide (a = 0) then mkBehaviour [] (Return a)
  else match n with
       | O => mkBehaviour [ReqSchedule 5] (Return a)
       | S _ => mkBehaviour [] (Return a)
       end.

(** A callable that asks nothing of the instance and returns its
    argument. *)
Definition quiet_func (n : nat) (a : Z) (kw : unit) : behaviour Z :=
  mkBehaviour [] (Return a).

End once.

(** ** scrapy/utils/reactor.py: installing and verifying the reactor *)

Module install.

(** A class, by the module and qualified name it was defined under. *)
Record pyclass : Type := mkClass { __module__ : string; __qualname__ : string }.

#[global] Instance pyclass_eq_dec : EqDecision pyclass.
Proof. solve_decision. Defined.

(** What an import path can resolve to: a class, the [install] function of
    a reactor module (it installs a reactor of the given class), or any
    other object. *)
Inductive pyobject : Type :=
  | PyClass (c : pyclass)
  | PyInstaller (c : pyclass)
  | PyValue (tag : string).

#[global] Instance pyobject_eq_dec : EqDecision pyobject.
Proof. solve_decision. Defined.

(** [twisted.internet.asyncioreactor.AsyncioSelectorReactor] *)
Definition AsyncioSelectorReactor : pyclass :=
  mkClass "twisted.internet.asyncioreactor" "AsyncioSelectorReactor".

(** An event loop object: which object it is, and its class. *)
Record EventLoop : Type := mkLoop { loop_id : nat; loop_class : pyclass }.

#[global] Instance EventLoop_eq_dec : EqDecision EventLoop.
Proof. solve_decision. Defined.

(** The installed reactor: its class and, for the asyncio reactor, the
    event loop it was installed on. *)
Record Reactor : Type :=
  mkReactor { reactor_class : pyclass; _asyncioEventloop : option EventLoop }.

Inductive policy : Type := DefaultPolicy | WindowsSelectorEventLoopPolicy.

#[global] Instance policy_eq_dec : EqDecision policy.
Proof. solve_decision. Defined.

(** The process-wide state the functions read and write: [sys.platform],
    the asyncio policy, the current event loop of asyncio, the counter that
    names the next loop object, and [twisted.internet.reactor] when
    [sys.modules] has it. *)
Record world : Type := mkWorld {
  sys_platform : string;
  event_loop_policy : policy;
  current_loop : option EventLoop;
  next_loop : nat;
  installed : option Reactor }.

(** Two worlds that differ at most in the event loops. *)
Definition same_process (w w1 : world) : Prop :=
  sys_platform w1 = sys_platform w
  /\ event_loop_policy w1 = event_loop_policy w
  /\ installed w1 = installed w.

(** The character [.] (code 46), then [str.split(".")] and
    [".".join(...)]. *)
Definition dot : Ascii.ascii :=
  Ascii.Ascii false true true true false true false false.

Fixpoint split_dot (s : string) : list string :=
  match s with
  | EmptyString => [EmptyString]
  | String c s' =>
      if decide (c = dot) then EmptyString :: split_dot s'
      else match split_dot s' with
           | w :: ws => String c w :: ws
           | [] => [String c EmptyString]
           end
  end.

Fixpoint join_dot (ws : list string) : string :=
  match ws with
  | [] => EmptyString
  | [w] => w
  | w :: ws' => w +:+ "." +:+ join_dot ws'
  end.

Section Install.

(** [load_object] of [scrapy/utils/misc.py] resolves an import path or
    raises; it is taken as given. *)
Variable load_object : string -> result pyobject.

(** [issubclass], the class of the loops a policy creates, and whether
    [asyncio.get_event_loop()] still creates a loop when none is current
    (before Python 3.14) or raises [RuntimeError]. *)
Variable issubclass : pyclass -> pyclass -> bool.
Variable policy_loop_class : policy -> pyclass.
Variable get_event_loop_creates : bool.

Definition lift {A} (r : result A) : M world A := fun w => (r, w).

Definition is_ReactorAlreadyInstalledError (e : exn) : bool :=
  bool_decide (e = ReactorAlreadyInstalledError).

Definition is_RuntimeError (e : exn) : bool :=
  match e with RuntimeError _ => true | _ => false end.

Definition set_asyncio_event_loop_policy : M world unit :=
  do w <- get ;;
  if bool_decide (sys_platform w = "win32")
     && negb (bool_decide (event_loop_policy w = WindowsSelectorEventLoopPolicy))
  then modify (fun w => mkWorld (sys_platform w) WindowsSelectorEventLoopPolicy
                          (current_loop w) (next_loop w) (installed w))
  else ret tt.

(** [asyncio.set_event_loop(loop)] *)
Definition set_event_loop (l : EventLoop) : M world unit :=
  modify (fun w => mkWorld (sys_platform w) (event_loop_policy w) (Some l)
                     (next_loop w) (installed w)).

(** [cls()]: a new loop object of class [cls]. *)
Definition construct_loop (cls : pyclass) : M world EventLoop :=
  do w <- get ;;
  do _ <- modify (fun w => mkWorld (sys_platform w) (event_loop_policy w)
                       (current_loop w) (S (next_loop w)) (installed w)) ;;
  ret (mkLoop (next_loop w) cls).

(** [asyncio.new_event_loop()] *)
Definition new_event_loop : M world EventLoop :=
  do w <- get ;; construct_loop (policy_loop_class (event_loop_policy w)).

(** [asyncio.get_event_loop()] *)
Definition get_event_loop : M world EventLoop :=
  do w <- get ;;
  match current_loop w with
  | Some l => ret l
  | None =>
      if get_event_loop_creates
      then do l <- new_event_loop ;; do _ <- set_event_loop l ;; ret l
      else raise (RuntimeError "There is no current event loop")
  end.

(** [isinstance(loop, obj)]: a [TypeError] unless [obj] is a class. *)
Definition isinstance (l : EventLoop) (obj : pyobject) : M world bool :=
  match obj with
  | PyClass c => ret (issubclass (loop_class l) c)
  | _ => raise (TypeError "isinstance() arg 2 must be a type")
  end.

(** [obj()] for a loaded object used as an event loop class. *)
Definition call_loop_class (obj : pyobject) : M world EventLoop :=
  match obj with
  | PyClass c => construct_loop c
  | _ => raise (TypeError "object is not an event loop class")
  end.

(** The [else] branch of [set_asyncio_event_loop]: no path is given. *)
Definition current_or_new_event_loop : M world EventLoop :=
  try_except get_event_loop is_RuntimeError
    (do l <- new_event_loop ;; do _ <- set_event_loop l ;; ret l).

(** [_get_asyncio_event_loop()] is [set_asyncio_event_loop(None)]. *)
Definition _get_asyncio_event_loop : M world EventLoop :=
  current_or_new_event_loop.

Definition set_asyncio_event_loop (event_loop_path : option string)
    : M world EventLoop :=
  match event_loop_path with
  | Some path =>
      do event_loop_class <- lift (load_object path) ;;
      do event_loop <- _get_asyncio_event_loop ;;
      do b <- isinstance event_loop event_loop_class ;;
      if negb b
      then do event_loop <- call_loop_class event_loop_class ;;
           do _ <- set_event_loop event_loop ;; ret event_loop
      else ret event_loop
  | None => current_or_new_event_loop
  end.

(** twisted's [installReactor]: an error when a reactor is installed. *)
Definition installReactor (r : Reactor) : M world unit :=
  do w <- get ;;
  match installed w with
  | Some _ => raise ReactorAlreadyInstalledError
  | None => modify (fun w => mkWorld (sys_platform w) (event_loop_policy w)
                               (current_loop w) (next_loop w) (Some r))
  end.

(** [asyncioreactor.install(eventloop=event_loop)] *)
Definition asyncioreactor_install (event_loop : EventLoop) : M world unit :=
  installReactor (mkReactor AsyncioSelectorReactor (Some event_loop)).

(** [installer()] for the object loaded from [<module>.install]. *)
Definition call_installer (obj : pyobject) : M world unit :=
  match obj with
  | PyInstaller c => installReactor (mkReactor c None)
  | PyClass _ => ret tt
  | PyValue _ => raise (TypeError "object is not callable")
  end.

Definition install_reactor (reactor_path : string)
    (event_loop_path : option string) : M world unit :=
  do reactor_class <- lift (load_object reactor_path) ;;
  if bool_decide (reactor_class = PyClass AsyncioSelectorReactor) then
    do _ <- set_asyncio_event_loop_policy ;;
    suppress is_ReactorAlreadyInstalledError
      (do event_loop <- set_asyncio_event_loop event_loop_path ;;
       asyncioreactor_install event_loop)
  else
    let module := removelast (split_dot reactor_path) in
    let installer_path := module ++ ["install"] in
    do installer <- lift (load_object (join_dot installer_path)) ;;
    suppress is_ReactorAlreadyInstalledError (call_installer installer).

(** [is_reactor_installed()] *)
Definition is_reactor_installed (w : world) : bool :=
  bool_decide (is_Some (installed w)).

(** Modelled from the spec: [global_object_name] of
    [scrapy/utils/python.py], which is not among the sources: the
    identity of a class as an import path, its module and its qualified
    name. *)
Definition global_object_name (c : pyclass) : string :=
  __module__ c +:+ "." +:+ __qualname__ c.

Definition verify_installed_reactor (reactor_path : string) : M world unit :=
  do w <- get ;;
  match installed w with
  | None =>
      raise (RuntimeError
        "verify_installed_reactor() called without an installed reactor.")
  | Some reactor =>
      do expected_reactor_type <- lift (load_object reactor_path) ;;
      let reactor_type := reactor_class reactor in
      if negb (bool_decide (PyClass reactor_type = expected_reactor_type))
      then raise (RuntimeError
             ("The installed reactor (" +:+ global_object_name reactor_type
              +:+ ") does not match the requested one (" +:+ reactor_path
              +:+ ")"))
      else ret tt
  end.

(** [reactor._asyncioEventloop]: only the asyncio reactor has the
    attribute. *)
Definition get_asyncioEventloop (reactor : Reactor) : M world EventLoop :=
  match _asyncioEventloop reactor with
  | Some l => ret l
  | None => raise (OtherError "AttributeError")
  end.

Definition verify_installed_asyncio_event_loop (loop_path : string)
    : M world unit :=
  do w <- get ;;
  match installed w with
  | None =>
      raise (RuntimeError
        "verify_installed_asyncio_event_loop() called without an installed reactor.")
  | Some reactor =>
      do loop_class <- lift (load_object loop_path) ;;
      do event_loop <- get_asyncioEventloop reactor ;;
      do b <- isinstance event_loop loop_class ;;
      if b then ret tt
      else
        let installed :=
          __module__ (install.loop_class event_loop) +:+ "."
          +:+ __qualname__ (install.loop_class event_loop) in
        match loop_class with
        | PyClass c =>
            raise (RuntimeError
              ("Scrapy found an asyncio Twisted reactor already "
               +:+ "installed, and its event loop class (" +:+ installed
               +:+ ") does "
               +:+ "not match the one specified in the ASYNCIO_EVENT_LOOP "
               +:+ "setting (" +:+ global_object_name c +:+ ")"))
        | _ => raise (TypeError "isinstance() arg 2 must be a type")
        end
  end.

(** [isinstance(reactor, asyncioreactor.AsyncioSelectorReactor)] after the
    check that a reactor is installed. *)
Definition is_asyncio_reactor_installed : M world bool :=
  do w <- get ;;
  match installed w with
  | None =>
      raise (RuntimeError
        "is_asyncio_reactor_installed() called without an installed reactor.")
  | Some reactor =>
      ret (issubclass (reactor_class reactor) AsyncioSelectorReactor)
  end.

End Install.

(** An import system for examples: two reactor modules and two loop
    classes. *)
Definition SelectReactor : pyclass :=
  mkClass "twisted.internet.selectreactor" "SelectReactor".
Definition SelectorEventLoop : pyclass :=
  mkClass "asyncio.unix_events" "_UnixSelectorEventLoop".
Definition UvLoop : pyclass := mkClass "uvloop" "Loop".

Definition sample_load_object (path : string) : result pyobject :=
  if decide (path = "twisted.internet.asyncioreactor.AsyncioSelectorReactor")
  then Return (PyClass AsyncioSelectorReactor)
  else if decide (path = "twisted.internet.selectreactor.SelectReactor")
  then Return (PyClass SelectReactor)
  else if decide (path = "twisted.internet.selectreactor.install")
  then Return (PyInstaller SelectReactor)
  else if decide (path = "uvloop.Loop")
  then Return (PyClass UvLoop)
  else if decide (path = "asyncio.SelectorEventLoop")
  then Return (PyClass SelectorEventLoop)
  else Raise (ImportError path).

Definition sample_issubclass (c d : pyclass) : bool := bool_decide (c = d).

Definition sample_policy_loop_class (_ : policy) : pyclass := SelectorEventLoop.

Definition fresh_world : world := mkWorld "linux" DefaultPolicy None 0 None.

End install.

(** ** scrapy/extensions/memusage.py *)

Module memusage.

(** What the operating system answers during one call of the extension:
    [sys.platform], [getrusage(RUSAGE_SELF).ru_maxrss], the host name and
    the printed engine status. *)
Record os : Type := mkOs {
  sys_platform : string;
  ru_maxrss : Z;
  hostname : string;
  engine_status : string }.

(** The settings [__init__] reads. *)
Record Settings : Type := mkSettings {
  MEMUSAGE_ENABLED : bool;
  MEMUSAGE_NOTIFY_MAIL : list string;
  MEMUSAGE_LIMIT_MB : Z;
  MEMUSAGE_WARNING_MB : Z;
  MEMUSAGE_CHECK_INTERVAL_SECONDS : Z;
  BOT_NAME : string }.

(** What the extension does to the outside: log records with the number
    they print, mails, and the two ways it asks the crawl to end. *)
Inductive effect : Type :=
  | LogError (memusage : Z)
  | LogWarning (memusage : Z)
  | LogInfo (virtualsize : Z)
  | Mail (rcpts : list string) (subject body : string)
  | CloseSpider (reason : string)
  | CrawlerStop.

#[global] Instance effect_eq_dec : EqDecision effect.
Proof. solve_decision. Defined.

(** The three functions the extension runs periodically. *)
Inductive task : Type := TaskUpdate | TaskCheckLimit | TaskCheckWarning.

Record LoopingCall : Type := mkLooping { task_of : task; running : bool }.

(** The attributes of the extension, the part of the crawler it uses (bot
    name, statistics, whether a spider is open) and the effects so far. *)
Record state : Type := mkState {
  warned : bool;
  notify_mails : list string;
  limit : Z;
  warning : Z;
  check_interval : Z;
  tasks : list LoopingCall;
  bot_name : string;
  stats : gmap string Z;
  spider : bool;
  out : list effect }.

Definition crlf : string :=
  String (Ascii.ascii_of_nat 13) (String (Ascii.ascii_of_nat 10) EmptyString).

Section MemoryUsage.

(** [str(n / 1024 / 1024)] for a number of bytes [n]: the quotient is a
    float, printed as Python prints floats.  Taken as given. *)
Variable str_MiB : Z -> string.

(** [n / 1024 / 1024] printed with [%d]: the integer part. *)
Definition MiB (n : Z) : Z := Z.quot (Z.quot n 1024) 1024.

Definition __init__ (settings : Settings) (resource_available : bool)
    (spider_open : bool) : result state :=
  if negb (MEMUSAGE_ENABLED settings) then Raise NotConfigured
  else if negb resource_available then Raise NotConfigured
  else Return (mkState false (MEMUSAGE_NOTIFY_MAIL settings)
                 (MEMUSAGE_LIMIT_MB settings * 1024 * 1024)
                 (MEMUSAGE_WARNING_MB settings * 1024 * 1024)
                 (MEMUSAGE_CHECK_INTERVAL_SECONDS settings)
                 [] (BOT_NAME settings) ∅ spider_open []).

Definition get_virtual_size (e : os) : Z :=
  let size := ru_maxrss e in
  if negb (bool_decide (sys_platform e = "darwin")) then size * 1024
  else size.

(** [stats.set_value(key, value)] *)
Definition set_value (key : string) (value : Z) : M state unit :=
  modify (fun st => mkState (warned st) (notify_mails st) (limit st)
                      (warning st) (check_interval st) (tasks st)
                      (bot_name st) (<[key := value]> (stats st))
                      (spider st) (out st)).

(** [stats.max_value(key, value)] *)
Definition max_value (key : string) (value : Z) : M state unit :=
  do st <- get ;;
  set_value key (Z.max (default value (stats st !! key)) value).

(** [stats.get_value(key)]: [None] when the key is missing. *)
Definition get_value (key : string) : M state (option Z) :=
  do st <- get ;; ret (stats st !! key).

Definition emit (x : effect) : M state unit :=
  modify (fun st => mkState (warned st) (notify_mails st) (limit st)
                      (warning st) (check_interval st) (tasks st)
                      (bot_name st) (stats st) (spider st) (out st ++ [x])).

Definition set_warned (b : bool) : M state unit :=
  modify (fun st => mkState b (notify_mails st) (limit st)
                      (warning st) (check_interval st) (tasks st)
                      (bot_name st) (stats st) (spider st) (out st)).

Definition set_tasks (ts : list LoopingCall) : M state unit :=
  modify (fun st => mkState (warned st) (notify_mails st) (limit st)
                      (warning st) (check_interval st) ts
                      (bot_name st) (stats st) (spider st) (out st)).

(** [x / 1024 / 1024] inside the f-string: a [TypeError] when the
    statistic is missing, as [None / 1024] is. *)
Definition printed_MiB (x : option Z) : M state string :=
  match x with
  | Some n => ret (str_MiB n)
  | None => raise (TypeError "unsupported operand type(s) for /")
  end.

Definition _send_report (e : os) (rcpts : list string) (subject : string)
    : M state unit :=
  do startup <- get_value "memusage/startup" ;;
  do startup_s <- printed_MiB startup ;;
  let s := "Memory usage at engine startup : " +:+ startup_s +:+ "M" +:+ crlf in
  do mx <- get_value "memusage/max" ;;
  do mx_s <- printed_MiB mx ;;
  let s := s +:+ "Maximum memory usage          : " +:+ mx_s +:+ "M" +:+ crlf in
  let s := s +:+ "Current memory usage          : "
             +:+ str_MiB (get_virtual_size e) +:+ "M" +:+ crlf in
  let s := s +:+
    "ENGINE STATUS ------------------------------------------------------- "
    +:+ crlf in
  let s := s +:+ crlf in
  let s := s +:+ engine_status e in
  let s := s +:+ crlf in
  emit (Mail rcpts subject s).

Definition update (e : os) : M state unit :=
  max_value "memusage/max" (get_virtual_size e).

Definition _check_limit (e : os) : M state unit :=
  let peak_mem_usage := get_virtual_size e in
  do self <- get ;;
  if bool_decide (peak_mem_usage > limit self) then
    do _ <- set_value "memusage/limit_reached" 1 ;;
    do _ <- emit (LogError (MiB (limit self))) ;;
    do _ <- (match notify_mails self with
             | [] => ret tt
             | _ :: _ =>
                 let subj := bot_name self +:+ " terminated: "
                             +:+ "memory usage exceeded "
                             +:+ str_MiB (limit self) +:+ "MiB at "
                             +:+ hostname e in
                 do _ <- _send_report e (notify_mails self) subj ;;
                 set_value "memusage/limit_notified" 1
             end) ;;
    if spider self then emit (CloseSpider "memusage_exceeded")
    else emit CrawlerStop
  else
    emit (LogInfo (MiB peak_mem_usage)).

Definition _check_warning (e : os) : M state unit :=
  do self <- get ;;
  if warned self then ret tt
  else if bool_decide (get_virtual_size e > warning self) then
    do _ <- set_value "memusage/warning_reached" 1 ;;
    do _ <- emit (LogWarning (MiB (warning self))) ;;
    do _ <- (match notify_mails self with
             | [] => ret tt
             | _ :: _ =>
                 let subj := bot_name self +:+ " warning: "
                             +:+ "memory usage reached "
                             +:+ str_MiB (warning self) +:+ "MiB at "
                             +:+ hostname e in
                 do _ <- _send_report e (notify_mails self) subj ;;
                 set_value "memusage/warning_notified" 1
             end) ;;
    set_warned true
  else ret tt.

Definition task_fn (t : task) : os -> M state unit :=
  match t with
  | TaskUpdate => update
  | TaskCheckLimit => _check_limit
  | TaskCheckWarning => _check_warning
  end.

(** Modelled from the spec: [create_looping_call] of
    [scrapy/utils/asyncio.py], which is not among the sources, with
    [start(interval, now=True)]: the task is recorded as running and its
    first invocation occurs with no initial delay. *)
Definition start_looping_call (t : task) (e : os) : M state unit :=
  do self <- get ;;
  do _ <- set_tasks (tasks self ++ [mkLooping t true]) ;;
  task_fn t e.

Definition engine_started (e : os) : M state unit :=
  do _ <- set_value "memusage/startup" (get_virtual_size e) ;;
  do _ <- set_tasks [] ;;
  do _ <- start_looping_call TaskUpdate e ;;
  do self <- get ;;
  do _ <- (if bool_decide (limit self <> 0)
           then start_looping_call TaskCheckLimit e else ret tt) ;;
  do self <- get ;;
  if bool_decide (warning self <> 0)
  then start_looping_call TaskCheckWarning e else ret tt.

Definition engine_stopped : M state unit :=
  do self <- get ;;
  set_tasks (map (fun tsk => if running tsk then mkLooping (task_of tsk) false
                             else tsk) (tasks self)).

(** Modelled from the spec: the periodic task runner, which is not among
    the sources: a tick invokes the function; an error of one tick is
    reported and does not stop the following ticks. *)
Definition tick (f : os -> M state unit) (st : state) (e : os) : state :=
  snd (f e st).

Definition ticks (f : os -> M state unit) (es : list os) (st : state)
    : state :=
  foldl (tick f) st es.

(** *** Observations *)

Definition is_LogError (x : effect) : bool :=
  match x with LogError _ => true | _ => false end.
Definition is_LogWarning (x : effect) : bool :=
  match x with LogWarning _ => true | _ => false end.
Definition is_Mail (x : effect) : bool :=
  match x with Mail _ _ _ => true | _ => false end.

Definition count (p : effect -> bool) (st : state) : nat :=
  length (List.filter p (out st)).

(** What a report to the configured recipients adds: nothing without
    recipients, else one mail and the statistic [key]. *)
Definition notified (key : string) (st : state) (stats' : gmap string Z)
    (mails : list effect) : Prop :=
  match notify_mails st with
  | [] => stats' = stats st /\ mails = []
  | _ :: _ => stats' = <[key := 1]> (stats st)
              /\ exists subj body, mails = [Mail (notify_mails st) subj body]
  end.

(** The number of mails one report adds. *)
Definition one_if_recipients (st : state) : nat :=
  match notify_mails st with [] => 0%nat | _ :: _ => 1%nat end.

(** How the limit check asks the crawl to end. *)
Definition shutdown (st : state) : effect :=
  if spider st then CloseSpider "memusage_exceeded" else CrawlerStop.

(** The statistics after a breach of the limit was handled. *)
Definition limit_stats (st : state) : gmap string Z :=
  match notify_mails st with
  | [] => <["memusage/limit_reached" := 1]> (stats st)
  | _ :: _ => <["memusage/limit_notified" := 1]>
                (<["memusage/limit_reached" := 1]> (stats st))
  end.

(** The report can be written: both statistics it prints are there. *)
Definition reportable (st : state) : Prop :=
  is_Some (stats st !! "memusage/startup")
  /\ is_Some (stats st !! "memusage/max").

(** The requests to end the crawl. *)
Definition is_shutdown (x : effect) : bool :=
  match x with CloseSpider _ | CrawlerStop => true | _ => false end.

(** Ticks of the three tasks in any order, each with what the system
    answers at that moment. *)
Definition task_ticks (xs : list (task * os)) (st : state) : state :=
  foldl (fun s x => tick (task_fn (fst x)) s (snd x)) st xs.

(** The warnings logged so far, plus one while the flag is clear. *)
Definition warning_budget (st : state) : nat :=
  (count is_LogWarning st + if warned st then 0 else 1)%nat.

End MemoryUsage.

(** For examples: floats printed for whole numbers of MiB, a Linux and a
    macOS process, and a monitor with a limit of 2 MiB and a warning
    threshold of 1 MiB. *)
Definition sample_str_MiB (n : Z) : string := pretty (Z.quot n 1048576) +:+ ".0".

Definition linux (raw : Z) : os := mkOs "linux" raw "host" "{}".
Definition darwin (raw : Z) : os := mkOs "darwin" raw "host" "{}".

Definition sample_settings (mails : list string) : Settings :=
  mkSettings true mails 2 1 60 "bot".

Definition sample_monitor (mails : list string) : state :=
  match __init__ (sample_settings mails) true true with
  | Return st => snd (engine_started sample_str_MiB (linux 512) st)
  | Raise _ => mkState false [] 0 0 0 [] EmptyString ∅ false []
  end.

(** The same monitor as [__init__] leaves it, before the engine starts:
    no statistic is recorded yet. *)
Definition sample_unstarted (mails : list string) : state :=
  mkState false mails (2 * 1024 * 1024) (1 * 1024 * 1024) 60 [] "bot" ∅
    true [].

End memusage.

(** * Properties *)

(** ** Sequencing *)

Section Sequencing.

Context {S A B : Type}.
Implicit Types (m : M S A) (k : A -> M S B).

Lemma bind_Return m k s a s1 :
  m s = (Return a, s1) -> bind m k s = k a s1.
Proof. intros H. unfold bind. rewrite H. reflexivity. Qed.

Lemma bind_Raise m k s e s1 :
  m s = (Raise e, s1) -> bind m k s = (Raise e, s1).
Proof. intros H. unfold bind. rewrite H. reflexivity. Qed.

Lemma bind_inv m k s r s2 :
  bind m k s = (r, s2) ->
  (exists a s1, m s = (Return a, s1) /\ k a s1 = (r, s2))
  \/ (exists e, m s = (Raise e, s2) /\ r = Raise e).
Proof.
  unfold bind. destruct (m s) as [[a | e] s1].
  - intros H. left. eauto.
  - intros [= <- <-]. right. eauto.
Qed.

End Sequencing.

(** ** [listen_tcp] *)

Section ListenTcpFacts.

Import listen.

Context {ServerFactory : Type}.
Variable listenTCP : Z -> ServerFactory -> string -> result Port.
Variables (host : string) (factory : ServerFactory).

Local Abbreviation listen_tcp := (listen_tcp ServerFactory listenTCP).
Local Abbreviation listen_loop := (listen_loop ServerFactory listenTCP).

Lemma listen_tcp_pair (p0 p1 : Z) :
  listen_tcp [p0; p1] host factory
  = listen_loop (py_range p0 (p1 + 1)) p1 host factory [].
Proof. reflexivity. Qed.

Lemma py_range_empty (lo stop : Z) : stop <= lo -> py_range lo stop = [].
Proof. intros Hle. unfold py_range. apply seqZ_nil. lia. Qed.

Lemma py_range_cons (lo stop : Z) :
  lo < stop -> py_range lo stop = lo :: py_range (lo + 1) stop.
Proof.
  intros Hlt. unfold py_range. rewrite seqZ_cons by lia.
  f_equal. f_equal; lia.
Qed.

(** C8: more than two entries raise; the empty range makes one bind on
    port 0 (any free port) and answers as that bind does; over
    [[8000, 8002]] with 8000 and 8001 refusing, the listener of 8002 is
    returned; over [[8000, 8001]] with both refusing, the error of 8001,
    the last port tried, is raised. *)
Theorem listen_tcp_port_range :
  (forall portrange, (2 < length portrange)%nat ->
     exists msg, listen_tcp portrange host factory
                 = ([], Raise (ValueError msg)))
  /\ listen_tcp [] host factory
     = ([0], match listenTCP 0 factory host with
             | Return p => Return (Some p)
             | Raise e => Raise e
             end)
  /\ (forall i0 q0 i1 q1 p,
        listenTCP 8000 factory host = Raise (CannotListenError i0 q0) ->
        listenTCP 8001 factory host = Raise (CannotListenError i1 q1) ->
        listenTCP 8002 factory host = Return p ->
        listen_tcp [8000; 8002] host factory
        = ([8000; 8001; 8002], Return (Some p)))
  /\ (forall i0 q0 i1 q1,
        listenTCP 8000 factory host = Raise (CannotListenError i0 q0) ->
        listenTCP 8001 factory host = Raise (CannotListenError i1 q1) ->
        listen_tcp [8000; 8001] host factory
        = ([8000; 8001], Raise (CannotListenError i1 q1))).
Proof.
  repeat split.
  - intros portrange Hlen. eexists. unfold listen.listen_tcp.
    destruct (decide (2 < length portrange)%nat); [reflexivity | lia].
  - intros i0 q0 i1 q1 p H0 H1 H2. rewrite listen_tcp_pair.
    change (py_range 8000 (8002 + 1)) with [8000; 8001; 8002].
    cbn [listen.listen_loop]. rewrite H0.
    destruct (decide (8000 = 8002)) as [Heq | _]; [discriminate Heq |].
    cbn [listen.listen_loop]. rewrite H1.
    destruct (decide (8001 = 8002)) as [Heq | _]; [discriminate Heq |].
    cbn [listen.listen_loop]. rewrite H2. reflexivity.
  - intros i0 q0 i1 q1 H0 H1. rewrite listen_tcp_pair.
    change (py_range 8000 (8001 + 1)) with [8000; 8001].
    cbn [listen.listen_loop]. rewrite H0.
    destruct (decide (8000 = 8001)) as [Heq | _]; [discriminate Heq |].
    cbn [listen.listen_loop]. rewrite H1.
    destruct (decide (8001 = 8001)) as [_ | Hne]; [reflexivity | done].
Qed.

(** C10: over [[low, high]] with [low > high] no bind is attempted and
    the function returns [None], raising nothing. *)
Theorem listen_tcp_inverted_range (low high : Z) :
  low > high ->
  listen_tcp [low; high] host factory = ([], Return None).
Proof.
  intros Hgt. rewrite listen_tcp_pair.
  rewrite py_range_empty by lia. reflexivity.
Qed.

(** The loop from [lo] on, when the ports below [x] refuse and the bind
    on [x] ends the loop: it returns, raises another error, or [x] is the
    last port. *)
Lemma listen_loop_stops (n : nat) : forall lo hi x tried,
  Z.to_nat (x - lo) = n -> lo <= x <= hi ->
  (forall y, lo <= y < x ->
     exists i q, listenTCP y factory host = Raise (CannotListenError i q)) ->
  (forall i q, listenTCP x factory host = Raise (CannotListenError i q) ->
     x = hi) ->
  listen_loop (py_range lo (hi + 1)) hi host factory tried
  = (tried ++ py_range lo (x + 1),
     snd (attempt ServerFactory listenTCP x host factory)).
Proof.
  induction n as [| n IH]; intros lo hi x tried Hn Hx Hbelow Hstop.
  - assert (lo = x) by lia. subst lo.
    rewrite (py_range_cons x (hi + 1)) by lia.
    rewrite (py_range_cons x (x + 1)), (py_range_empty (x + 1) (x + 1)) by lia.
    cbn [listen.listen_loop attempt snd].
    destruct (listenTCP x factory host) as [p | e] eqn:E; [reflexivity |].
    destruct e; try reflexivity.
    rewrite (Hstop _ _ eq_refl).
    destruct (decide (hi = hi)); [reflexivity | done].
  - rewrite (py_range_cons lo (hi + 1)), (py_range_cons lo (x + 1)) by lia.
    cbn [listen.listen_loop].
    destruct (Hbelow lo) as (i & q & ->); [lia |].
    destruct (decide (lo = hi)); [lia |].
    rewrite (IH (lo + 1) hi x (tried ++ [lo])); try lia.
    + rewrite <- app_assoc. reflexivity.
    + intros y Hy. apply Hbelow. lia.
    + exact Hstop.
Qed.

(** X1: over [[low, high]] the first port that does not refuse decides:
    if the ports below [x] raise [CannotListenError] and the bind on [x]
    returns a listener, that listener is returned, the ports tried being
    [low] to [x] in order and none above. *)
Theorem listen_tcp_first_free (low high x : Z) (p : Port) :
  low <= x <= high ->
  (forall y, low <= y < x ->
     exists i q, listenTCP y factory host = Raise (CannotListenError i q)) ->
  listenTCP x factory host = Return p ->
  listen_tcp [low; high] host factory
  = (py_range low (x + 1), Return (Some p)).
Proof.
  intros Hx Hbelow Hp. rewrite listen_tcp_pair.
  rewrite (listen_loop_stops (Z.to_nat (x - low)) low high x []
             eq_refl Hx Hbelow).
  - unfold attempt. rewrite Hp. reflexivity.
  - intros i q H. rewrite H in Hp. discriminate.
Qed.

(** X2: an error other than [CannotListenError] is not retried: if the
    ports below [x] refuse and the bind on [x] raises another exception,
    that exception is raised and no port above [x] is tried. *)
Theorem listen_tcp_other_error (low high x : Z) (e : exn) :
  low <= x <= high ->
  (forall y, low <= y < x ->
     exists i q, listenTCP y factory host = Raise (CannotListenError i q)) ->
  listenTCP x factory host = Raise e ->
  (forall i q, e <> CannotListenError i q) ->
  listen_tcp [low; high] host factory = (py_range low (x + 1), Raise e).
Proof.
  intros Hx Hbelow He Hother. rewrite listen_tcp_pair.
  rewrite (listen_loop_stops (Z.to_nat (x - low)) low high x []
             eq_refl Hx Hbelow).
  - unfold attempt. rewrite He. reflexivity.
  - intros i q H. rewrite H in He. injection He as <-.
    destruct (Hother i q eq_refl).
Qed.

(** X3: when every port of [[low, high]] refuses, every port has been tried
    once, in order, and the error raised is the one of [high]. *)
Theorem listen_tcp_all_refused (low high : Z) :
  low <= high ->
  (forall y, low <= y <= high ->
     exists i q, listenTCP y factory host = Raise (CannotListenError i q)) ->
  exists i q,
    listenTCP high factory host = Raise (CannotListenError i q)
    /\ listen_tcp [low; high] host factory
       = (py_range low (high + 1), Raise (CannotListenError i q)).
Proof.
  intros Hle Hall. destruct (Hall high) as (i & q & Hhigh); [lia |].
  exists i, q. split; [exact Hhigh |]. rewrite listen_tcp_pair.
  rewrite (listen_loop_stops (Z.to_nat (high - low)) low high high []
             eq_refl); try lia.
  - unfold attempt. rewrite Hhigh. reflexivity.
  - intros y Hy. apply Hall. lia.
Qed.

Lemma listen_loop_not_none (n : nat) : forall lo hi tried tried',
  Z.to_nat (hi - lo) = n -> lo <= hi ->
  listen_loop (py_range lo (hi + 1)) hi host factory tried
  <> (tried', Return None).
Proof.
  induction n as [| n IH]; intros lo hi tried tried' Hn Hle;
    rewrite (py_range_cons lo (hi + 1)) by lia; cbn [listen.listen_loop];
    destruct (listenTCP lo factory host) as [p | e]; try discriminate;
    destruct e; try discriminate;
    destruct (decide (lo = hi)); try discriminate.
  - lia.
  - apply IH; lia.
Qed.

(** X4: a range of two ports gives no listener and no error exactly when
    it is inverted: [listen_tcp] returns [None] if and only if
    [low > high]. *)
Theorem listen_tcp_none_iff (low high : Z) :
  snd (listen_tcp [low; high] host factory) = Return None <-> low > high.
Proof.
  split.
  - intros H. destruct (decide (low > high)) as [Hgt | Hle]; [exact Hgt |].
    exfalso. rewrite listen_tcp_pair in H.
    destruct (listen_loop (py_range low (high + 1)) high host factory [])
      as [tried r] eqn:E. simpl in H. subst r.
    apply (listen_loop_not_none (Z.to_nat (high - low)) low high [] tried
             eq_refl) in E; [exact E | lia].
  - intros Hgt. rewrite listen_tcp_pair, py_range_empty by lia. reflexivity.
Qed.

End ListenTcpFacts.

Lemma listen_tcp_port_range_witness :
  listen.listen_tcp unit (listen.listenTCP_on [8000; 8001]) [8000; 8002]
    "127.0.0.1" tt
  = ([8000; 8001; 8002], Return (Some (listen.mkPort 8002 "127.0.0.1")))
  /\ listen.listen_tcp unit (listen.listenTCP_on [8000; 8001]) [8000; 8001]
       "127.0.0.1" tt
     = ([8000; 8001], Raise (CannotListenError "127.0.0.1" 8001)).
Proof.
  destruct (listen_tcp_port_range (listen.listenTCP_on [8000; 8001])
              "127.0.0.1" tt) as (_ & _ & H3 & H4).
  split.
  - apply (H3 "127.0.0.1" 8000 "127.0.0.1" 8001); reflexivity.
  - apply (H4 "127.0.0.1" 8000 "127.0.0.1" 8001); reflexivity.
Defined.

Lemma listen_tcp_inverted_range_witness :
  8002 > 8000
  /\ listen.listen_tcp unit (listen.listenTCP_on []) [8002; 8000]
       "127.0.0.1" tt
     = ([], Return None).
Proof.
  split; [lia | apply listen_tcp_inverted_range; lia].
Defined.

(** ** [CallLaterOnce] *)

Section CallLaterOnceFacts.

Import once.

Context {Args Kwargs T : Type}.

Local Abbreviation state := (state Args Kwargs T).

Implicit Types (st : state) (q : list DelayedCall) (dc : DelayedCall).



Lemma earliest_elem q dc : earliest q = Some dc -> dc ∈ q.
Proof.
  revert dc. induction q as [| x q IH]; intros dc; simpl.
  - discriminate.
  - destruct (earliest q) as [dc' |] eqn:E.
    + destruct (decide (dc_time x <= dc_time dc')); intros [= <-].
      * left.
      * right. apply IH. reflexivity.
    + intros [= <-]. left.
Qed.

Lemma schedule_pending st h delay : _call st = Some h -> schedule delay st = st.
Proof. intros H. unfold schedule. rewrite H. reflexivity. Qed.

Lemma schedule_idle st delay :
  _call st = None ->
  schedule delay st
  = mkState (_func st) (_a st) (_kw st) (Some (next_handle st)) (_deferreds st)
      (seconds st)
      (delayed st ++ [mkDelayed (next_handle st) (seconds st + delay) CallSelf])
      (S (next_handle st)) (next_deferred st) (calls st) (resolved st)
      (errors st).
Proof. intros H. unfold schedule. rewrite H. reflexivity. Qed.


(** The requests of the callable and the release of waiters leave the
    invocation log and the bound arguments alone. *)
Lemma serve_log st r :
  calls (serve r st) = calls st /\ _a (serve r st) = _a st
  /\ _kw (serve r st) = _kw st /\ errors (serve r st) = errors st.
Proof.
  destruct r; simpl; unfold schedule, cancel; destruct (_call st); simpl; auto.
Qed.

Lemma serves_log st (rs : list request) :
  calls (foldl (fun s r => serve r s) st rs) = calls st
  /\ errors (foldl (fun s r => serve r s) st rs) = errors st.
Proof.
  revert st. induction rs as [| r rs IH]; intros st; simpl; [auto |].
  destruct (IH (serve r st)) as [-> ->].
  destruct (serve_log st r) as (-> & _ & _ & ->). auto.
Qed.

Lemma release_frame st (ds : list nat) :
  calls (release ds st) = calls st /\ _call (release ds st) = _call st
  /\ _deferreds (release ds st) = _deferreds st
  /\ seconds (release ds st) = seconds st
  /\ errors (release ds st) = errors st
  /\ delayed (release ds st)
     = delayed st
       ++ imap (fun i d => mkDelayed (next_handle st + i) (seconds st + 0)
                             (CallCallback d)) ds.
Proof.
  revert st. induction ds as [| d ds IH]; intros st.
  - simpl. rewrite app_nil_r. repeat split; reflexivity.
  - change (release (d :: ds) st)
      with (release ds (snd (call_later 0 (CallCallback d) st))).
    destruct (IH (snd (call_later 0 (CallCallback d) st)))
      as (-> & -> & -> & -> & -> & ->). simpl.
    repeat split; try reflexivity.
    rewrite <- app_assoc. simpl. rewrite Nat.add_0_r. do 2 f_equal.
    apply imap_ext. intros i x _. simpl. f_equal. lia.
Qed.






Lemma call_log st :
  calls (snd (__call__ st)) = calls st ++ [(_a st, _kw st)].
Proof.
  unfold __call__, invoke. simpl.
  destruct (outcome _); simpl.
  - destruct (release_frame
      (foldl (fun s r => serve r s)
         (mkState (_func st) (_a st) (_kw st) None (_deferreds st)
            (seconds st) (delayed st) (next_handle st) (next_deferred st)
            (calls st ++ [(_a st, _kw st)]) (resolved st) (errors st))
         (requests (_func st (length (calls st)) (_a st) (_kw st))))
      (_deferreds (foldl (fun s r => serve r s)
         (mkState (_func st) (_a st) (_kw st) None (_deferreds st)
            (seconds st) (delayed st) (next_handle st) (next_deferred st)
            (calls st ++ [(_a st, _kw st)]) (resolved st) (errors st))
         (requests (_func st (length (calls st)) (_a st) (_kw st))))))
      as (-> & _).
    apply serves_log.
  - apply serves_log.
Qed.




(** What the requests of the callable can and cannot change. *)
Lemma serve_frame st r :
  seconds (serve r st) = seconds st
  /\ (forall d, d ∈ _deferreds st -> d ∈ _deferreds (serve r st))
  /\ (forall dc d, dc ∈ delayed (serve r st) ->
        dc_callee dc = CallCallback d -> dc ∈ delayed st).
Proof.
  destruct r; simpl; unfold schedule, cancel; destruct (_call st); simpl;
    (split; [reflexivity |]); (split; [auto |]); auto.
  - intros dc x Hin Hc. apply elem_of_app in Hin as [Hin | Hin]; [exact Hin |].
    apply list_elem_of_singleton in Hin. subst dc. discriminate.
  - intros dc x Hin _. apply list_elem_of_filter in Hin as [_ Hin]. exact Hin.
  - intros d Hin. apply elem_of_app. left. exact Hin.
  - intros d Hin. apply elem_of_app. left. exact Hin.
Qed.

Lemma serves_frame st (rs : list request) :
  let st' := foldl (fun s r => serve r s) st rs in
  seconds st' = seconds st
  /\ (forall d, d ∈ _deferreds st -> d ∈ _deferreds st')
  /\ (forall dc d, dc ∈ delayed st' ->
        dc_callee dc = CallCallback d -> dc ∈ delayed st).
Proof.
  revert st. induction rs as [| r rs IH]; intros st; simpl; [auto |].
  destruct (IH (serve r st)) as (Hs & Hd & Hq).
  destruct (serve_frame st r) as (Hs' & Hd' & Hq').
  split; [congruence |]. split; [auto |]. eauto.
Qed.

(** C2, as the code has it: the firing clears the pending marker before
    the callable runs, so that a [schedule] the callable makes is a fresh
    one; the callable is invoked with its bound arguments; when it returns,
    every registered waiter gets its callback scheduled and the waiter list
    is emptied; when it raises, the error reaches the reactor and the
    waiters are not released: they stay registered and no callback is
    scheduled. *)
Theorem call_fires st :
  let b := _func st (length (calls st)) (_a st) (_kw st) in
  let st' := snd (__call__ st) in
  calls st' = calls st ++ [(_a st, _kw st)]
  /\ (forall delay, requests b = [ReqSchedule delay] ->
        _call st' = Some (next_handle st)
        /\ mkDelayed (next_handle st) (seconds st + delay) CallSelf
           ∈ delayed st')
  /\ (requests b = [] -> _call st' = None)
  /\ (forall v, outcome b = Return v ->
        fst (__call__ st) = Return v
        /\ _deferreds st' = []
        /\ released (_deferreds st) st')
  /\ (forall e, outcome b = Raise e ->
        fst (__call__ st) = Raise e
        /\ (forall d, d ∈ _deferreds st -> d ∈ _deferreds st')
        /\ (forall dc d, dc ∈ delayed st' ->
              dc_callee dc = CallCallback d -> dc ∈ delayed st)
        /\ (forall dc, dc_callee dc = CallSelf ->
              errors (run_delayed dc st) = errors st ++ [e]))
  /\ (forall dc d st0, dc_callee dc = CallCallback d ->
        resolved (run_delayed dc st0) = resolved st0 ++ [d]).
Proof.
  intros b st'. split; [apply call_log |].
  set (st1 := mkState (_func st) (_a st) (_kw st) None (_deferreds st)
                (seconds st) (delayed st) (next_handle st) (next_deferred st)
                (calls st ++ [(_a st, _kw st)]) (resolved st) (errors st)).
  set (st2 := foldl (fun s r => serve r s) st1 (requests b)).
  assert (Hcall : __call__ st
                  = match outcome b with
                    | Return v =>
                        (Return v, set_deferreds [] (release (_deferreds st2) st2))
                    | Raise e => (Raise e, st2)
                    end).
  { unfold __call__, invoke. simpl. fold b. fold st1. fold st2.
    destruct (outcome b); reflexivity. }
  destruct (serves_frame st1 (requests b)) as (Hsec & Hdef & Hq).
  fold st2 in Hsec, Hdef, Hq. simpl in Hsec, Hdef, Hq.
  destruct (release_frame st2 (_deferreds st2))
    as (_ & Hrc & _ & Hrs & _ & Hrq).
  split; [| split; [| split; [| split]]].
  - intros delay Hreq. unfold st'. rewrite Hcall.
    assert (H2 : st2 = schedule delay st1) by (unfold st2; rewrite Hreq; reflexivity).
    destruct (outcome b); simpl.
    + rewrite Hrc, Hrq, H2. simpl. split; [reflexivity |].
      apply elem_of_app. left. apply elem_of_app. right. left.
    + rewrite H2. simpl. split; [reflexivity |].
      apply elem_of_app. right. left.
  - intros Hreq. unfold st'. rewrite Hcall.
    assert (H2 : st2 = st1) by (unfold st2; rewrite Hreq; reflexivity).
    destruct (outcome b); simpl; [rewrite Hrc |]; rewrite H2; reflexivity.
  - intros v Hv. unfold st'. rewrite Hcall, Hv. simpl.
    split; [reflexivity |]. split; [reflexivity |].
    intros d Hin. apply Hdef in Hin.
    apply list_elem_of_lookup in Hin as [i Hi].
    exists (next_handle st2 + i)%nat. unfold set_deferreds.
    cbn [seconds delayed]. rewrite Hrs, Hrq.
    apply elem_of_app. right.
    apply elem_of_lookup_imap. exists i, d. split; [| exact Hi].
    f_equal. lia.
  - intros e He. unfold st'. rewrite Hcall, He. simpl.
    split; [reflexivity |]. split; [exact Hdef |]. split; [exact Hq |].
    intros dc Hc. unfold run_delayed. rewrite Hc.
    unfold __call__, invoke. simpl. fold b. rewrite He. simpl.
    f_equal.
    match goal with |- errors (foldl _ ?s ?rs) = _ =>
      exact (proj2 (serves_log s rs))
    end.
  - intros dc d st0 Hc. unfold run_delayed. rewrite Hc. reflexivity.
Qed.




(** *** The marker and the queue *)

Lemma self_calls_filter (P : DelayedCall -> Prop)
    `{!forall dc, Decision (P dc)} q :
  filter (fun dc => dc_callee dc = CallSelf) (filter P q)
  = filter P (filter (fun dc => dc_callee dc = CallSelf) q).
Proof.
  induction q as [| x q IH]; [reflexivity |].
  rewrite !filter_cons.
  destruct (decide (P x)), (decide (dc_callee x = CallSelf));
    rewrite ?filter_cons; repeat case_decide; try contradiction;
    rewrite IH; reflexivity.
Qed.

Lemma at_most_one_filter (P : DelayedCall -> Prop)
    `{!forall dc, Decision (P dc)} (l : list DelayedCall) h :
  l = [] \/ (exists t, l = [mkDelayed h t CallSelf]) ->
  filter P l = [] \/ (exists t, filter P l = [mkDelayed h t CallSelf]).
Proof.
  intros [-> | [t ->]]; [left; reflexivity |].
  rewrite filter_cons. case_decide; [right; eauto | left; reflexivity].
Qed.

Lemma coalesced_filter (P : DelayedCall -> Prop)
    `{!forall dc, Decision (P dc)} st :
  coalesced st -> coalesced (set_delayed (filter P (delayed st)) st).
Proof.
  intros [Hh Hc]. split; simpl.
  - unfold set_delayed. simpl. clear Hc.
    induction Hh as [| x q Hx _ IH]; [constructor |].
    rewrite filter_cons. case_decide; [constructor |]; assumption.
  - unfold self_calls in *. simpl. rewrite self_calls_filter.
    destruct (_call st) as [h |].
    + destruct Hc as [Hlt Hc]. split; [exact Hlt |].
      apply at_most_one_filter, Hc.
    + rewrite Hc. reflexivity.
Qed.

Lemma coalesced_serve st r : coalesced st -> coalesced (serve r st).
Proof.
  intros Hco. destruct r; simpl.
  - unfold schedule. destruct (_call st) as [h |] eqn:Hc; [exact Hco |].
    destruct Hco as [Hh Hs]. rewrite Hc in Hs. split; simpl.
    + apply Forall_app. split.
      * eapply Forall_impl; [exact Hh |]. simpl. intros; lia.
      * constructor; [simpl; lia | constructor].
    + split; [lia |]. right. exists (seconds st + delay).
      unfold self_calls in *. simpl. rewrite filter_app, Hs. reflexivity.
  - unfold cancel. destruct (_call st) as [h |] eqn:Hc; [| exact Hco].
    apply coalesced_filter, Hco.
  - destruct Hco as [Hh Hs]. split; simpl; assumption.
Qed.

Lemma coalesced_serves st (rs : list request) :
  coalesced st -> coalesced (foldl (fun s r => serve r s) st rs).
Proof.
  revert st. induction rs as [| r rs IH]; intros st H; [exact H |].
  simpl. apply IH, coalesced_serve, H.
Qed.

Lemma coalesced_release st (ds : list nat) :
  coalesced st -> coalesced (release ds st).
Proof.
  revert st. induction ds as [| d ds IH]; intros st H; [exact H |].
  change (release (d :: ds) st)
    with (release ds (snd (call_later 0 (CallCallback d) st))).
  apply IH. destruct H as [Hh Hs]. split; simpl.
  - apply Forall_app. split.
    + eapply Forall_impl; [exact Hh |]. simpl. intros; lia.
    + constructor; [simpl; lia | constructor].
  - unfold self_calls in *. simpl. rewrite filter_app.
    rewrite filter_cons. simpl. rewrite filter_nil, app_nil_r.
    destruct (_call st) as [h |]; [| exact Hs].
    destruct Hs as [Hlt Hs]. split; [lia | exact Hs].
Qed.

(** A firing on a state in which no delayed call invokes the instance. *)
Lemma coalesced_call st :
  Forall (fun dc => (dc_handle dc < next_handle st)%nat) (delayed st) ->
  self_calls st = [] ->
  coalesced (snd (__call__ st)).
Proof.
  intros Hh Hs. unfold __call__, invoke. simpl.
  match goal with |- context [foldl ?f ?s ?rs] =>
    assert (Hco : coalesced (foldl f s rs))
      by (apply coalesced_serves; split; [exact Hh | exact Hs]);
    set (st2 := foldl f s rs) in *
  end.
  destruct (outcome _); simpl; [| exact Hco].
  pose proof (coalesced_release st2 (_deferreds st2) Hco) as [Hh3 Hs3].
  split; [exact Hh3 | exact Hs3].
Qed.

Lemma coalesced_run_delayed st dc :
  dc ∈ delayed st -> coalesced st -> coalesced (run_delayed dc st).
Proof.
  intros Hin Hco.
  pose proof (coalesced_filter (fun x => dc_handle x <> dc_handle dc) st Hco)
    as [Hh1 Hs1].
  unfold run_delayed. destruct (dc_callee dc) eqn:Hdc.
  - assert (Hnone : filter (fun x => dc_callee x = CallSelf)
                      (filter (fun x => dc_handle x <> dc_handle dc)
                         (delayed st)) = []).
    { rewrite self_calls_filter.
      assert (Hself : dc ∈ self_calls st)
        by (apply list_elem_of_filter; split; assumption).
      destruct Hco as [_ Hs]. destruct (_call st) as [h |].
      - destruct Hs as [_ [Hs | [t Hs]]]; unfold self_calls in *;
          rewrite Hs in *; [inversion Hself |].
        apply list_elem_of_singleton in Hself. subst dc.
        rewrite filter_cons. simpl. case_decide; [done | reflexivity].
      - unfold self_calls in *. rewrite Hs in Hself. inversion Hself. }
    match goal with |- context [__call__ ?s] =>
      pose proof (coalesced_call s Hh1 Hnone) as Hc;
      destruct (__call__ s) as [[v | e] st2]
    end; simpl in *; [exact Hc |].
    destruct Hc as [Hh Hs]. split; [exact Hh | exact Hs].
  - split; [exact Hh1 | exact Hs1].
Qed.

Lemma coalesced_step st ev :
  ev <> EvCall -> coalesced st -> coalesced (step st ev).
Proof.
  intros Hev Hco. destruct ev; simpl; try contradiction.
  - apply (coalesced_serve st (ReqSchedule delay) Hco).
  - apply (coalesced_serve st ReqCancel Hco).
  - apply (coalesced_serve st ReqWait Hco).
  - unfold run_next. destruct (earliest (delayed st)) as [dc |] eqn:E;
      [| exact Hco].
    apply coalesced_run_delayed; [apply earliest_elem, E | exact Hco].
Qed.

(** X5: whatever the history of [schedule], [cancel], [wait], firings by
    the reactor and requests the callable makes while it runs (the
    instance not being invoked directly), the marker and the queue stay in
    agreement: at most one delayed call invokes the instance, and none
    does while the marker is clear. *)
Theorem at_most_one_pending st (evs : list event) :
  coalesced st ->
  Forall (fun ev => ev <> EvCall) evs ->
  let st' := run evs st in
  coalesced st'
  /\ (length (self_calls st') <= 1)%nat
  /\ (_call st' = None -> self_calls st' = []).
Proof.
  intros Hco Hevs st'.
  assert (H : coalesced st').
  { unfold st'. clear st'. revert st Hco.
    induction Hevs as [| ev evs Hev _ IH]; intros st Hco; [exact Hco |].
    change (run (ev :: evs) st) with (run evs (step st ev)).
    apply IH, coalesced_step; assumption. }
  split; [exact H |]. destruct H as [_ Hs].
  destruct (_call st') as [h |].
  - split; [| discriminate].
    destruct Hs as [_ [-> | [t ->]]]; simpl; lia.
  - rewrite Hs. split; [simpl; lia | reflexivity].
Qed.

(** *** The waiters *)

Local Abbreviation staged A C R n :=
  (NoDup (A ++ C ++ R) /\ Forall (fun d : nat => (d < n)%nat) (A ++ C ++ R)).





Lemma callbacks_filter (P : DelayedCall -> Prop)
    `{!forall dc, Decision (P dc)} q :
  callbacks (filter P q) `sublist_of` callbacks q.
Proof.
  induction q as [| x q IH]; [reflexivity |].
  rewrite filter_cons. unfold callbacks in *. simpl.
  destruct (decide (P x)); simpl; destruct (dc_callee x); simpl;
    try exact IH; [apply sublist_skip | apply sublist_cons]; exact IH.
Qed.









(** *** Cancelling, reusing, invoking directly *)

Lemma self_calls_nil_list q :
  no_self_call q -> filter (fun dc => dc_callee dc = CallSelf) q = [].
Proof.
  induction 1 as [| x q Hx _ IH]; [reflexivity |].
  rewrite filter_cons. destruct (decide (dc_callee x = CallSelf)); [done |].
  exact IH.
Qed.

(** X7: [cancel] with nothing scheduled changes nothing; cancelling twice
    is cancelling once; [cancel] removes every delayed call of the handle
    and leaves the marker, the waiters and what was resolved as they
    were. *)
Theorem cancel_idempotent st :
  (_call st = None -> cancel st = st)
  /\ cancel (cancel st) = cancel st
  /\ _call (cancel st) = _call st
  /\ _deferreds (cancel st) = _deferreds st
  /\ resolved (cancel st) = resolved st
  /\ callbacks (delayed (cancel st)) `sublist_of` callbacks (delayed st)
  /\ (forall h dc, _call st = Some h -> dc ∈ delayed (cancel st) ->
        dc_handle dc <> h /\ dc ∈ delayed st).
Proof.
  unfold cancel. destruct (_call st) as [h |] eqn:Hc.
  - split; [discriminate |]. simpl. rewrite Hc. unfold cancel_handle. simpl.
    split.
    { unfold set_delayed. simpl. f_equal.
      rewrite list_filter_filter. apply list_filter_iff. tauto. }
    do 3 (split; [reflexivity |]).
    split; [apply callbacks_filter |].
    intros h' dc [= <-] Hin. apply list_elem_of_filter in Hin. exact Hin.
  - rewrite Hc. do 5 (split; [reflexivity |]).
    split; [reflexivity | discriminate].
Qed.

(** The marker is set and the queue is empty: nothing moves any more,
    except by a direct invocation. *)
Lemma step_stuck st ev h :
  ev <> EvCall -> _call st = Some h -> delayed st = [] ->
  _call (step st ev) = Some h /\ delayed (step st ev) = []
  /\ resolved (step st ev) = resolved st
  /\ calls (step st ev) = calls st
  /\ _deferreds (step st ev)
     = _deferreds st
       ++ match ev with EvWait => [next_deferred st] | _ => [] end.
Proof.
  intros Hev Hc Hq. destruct ev; simpl; try contradiction.
  - rewrite (schedule_pending st h delay Hc), app_nil_r. auto.
  - unfold cancel. rewrite Hc. simpl. rewrite Hq, app_nil_r. auto.
  - auto.
  - unfold run_next. rewrite Hq. simpl. rewrite app_nil_r. auto.
Qed.

(** X8: after [schedule] then [cancel] on an instance whose reactor has
    nothing else pending, no waiter is ever released: over any later
    [schedule], [cancel], [wait] and reactor steps (the instance not being
    invoked directly) the queue stays empty, nothing is resolved, and
    every waiter, old or new, stays in [_deferreds]. *)
Theorem cancel_strands_waiters st (d : Z) (evs : list event) :
  _call st = None -> delayed st = [] ->
  Forall (fun ev => ev <> EvCall) evs ->
  let st' := run evs (cancel (schedule d st)) in
  delayed st' = []
  /\ resolved st' = resolved st
  /\ calls st' = calls st
  /\ (forall x, x ∈ _deferreds st -> x ∈ _deferreds st')
  /\ length (_deferreds st')
     = (length (_deferreds st)
        + length (filter (fun ev => ev = EvWait) evs))%nat.
Proof.
  intros Hc Hq Hevs st'. unfold st'. clear st'.
  set (st0 := cancel (schedule d st)).
  assert (H0 : _call st0 = Some (next_handle st) /\ delayed st0 = []
               /\ resolved st0 = resolved st /\ calls st0 = calls st
               /\ _deferreds st0 = _deferreds st).
  { unfold st0. rewrite schedule_idle by assumption. unfold cancel. simpl.
    rewrite Hq. simpl. rewrite filter_cons. simpl.
    destruct (decide (next_handle st <> next_handle st)); [done |].
    auto. }
  destruct H0 as (Hc0 & Hq0 & <- & <- & <-).
  clearbody st0. revert Hc0. generalize (next_handle st) as h.
  intros h Hc0. clear Hc Hq st.
  revert st0 Hc0 Hq0. induction Hevs as [| ev evs Hev _ IH]; intros st Hc Hq.
  - simpl. rewrite Nat.add_0_r. auto.
  - change (run (ev :: evs) st) with (run evs (step st ev)).
    destruct (step_stuck st ev _ Hev Hc Hq) as (Hc' & Hq' & Hr & Hl & Hd).
    destruct (IH (step st ev) Hc' Hq') as (H1 & H2 & H3 & H4 & H5).
    split; [exact H1 |]. split; [congruence |]. split; [congruence |].
    split.
    + intros x Hx. apply H4. rewrite Hd. apply elem_of_app. left. exact Hx.
    + rewrite H5, Hd, length_app, filter_cons.
      destruct ev; try contradiction;
        (destruct (decide _) as [Heq | Hne];
         [try discriminate Heq | try (exfalso; apply Hne; reflexivity)]);
        simpl; lia.
Qed.

(** One round on an instance at rest, for a callable that asks nothing of
    the instance: [schedule], then the reactor runs the call. *)
Lemma round_at_rest st (d : Z) :
  (forall n a kw, requests (_func st n a kw) = []) ->
  _call st = None -> delayed st = [] -> _deferreds st = [] ->
  let st' := run [EvSchedule d; EvReactor] st in
  _func st' = _func st /\ _a st' = _a st /\ _kw st' = _kw st
  /\ _call st' = None /\ delayed st' = [] /\ _deferreds st' = []
  /\ calls st' = calls st ++ [(_a st, _kw st)].
Proof.
  intros Hreq Hc Hq Hd. unfold run. simpl.
  rewrite schedule_idle by assumption. unfold run_next. simpl.
  rewrite Hq. simpl. unfold run_delayed. simpl. rewrite filter_cons. simpl.
  destruct (decide (next_handle st <> next_handle st)); [done |].
  unfold __call__, invoke. simpl. rewrite Hreq. simpl.
  rewrite Hd. destruct (outcome _); simpl; repeat split; reflexivity.
Qed.

(** X9: the instance can be used again after each firing: for a callable
    that asks nothing of the instance, [n] rounds of [schedule] followed by
    the reactor running the call invoke the callable [n] times, each time
    with the arguments given at construction, and leave nothing pending. *)
Theorem schedule_again_after_firing
    (func : nat -> Args -> Kwargs -> behaviour T) a kw now (ds : list Z) :
  (forall n a kw, requests (func n a kw) = []) ->
  let st' := run (flat_map (fun d => [EvSchedule d; EvReactor]) ds)
               (__init__ func a kw now) in
  calls st' = repeat (a, kw) (length ds)
  /\ _call st' = None /\ delayed st' = [].
Proof.
  intros Hreq.
  assert (Hgen : forall ds st,
    _func st = func -> _call st = None -> delayed st = [] ->
    _deferreds st = [] ->
    let st' := run (flat_map (fun d => [EvSchedule d; EvReactor]) ds) st in
    calls st' = calls st ++ repeat (_a st, _kw st) (length ds)
    /\ _call st' = None /\ delayed st' = []).
  { clear a kw now ds. intros ds.
    induction ds as [| d ds IH]; intros st Hf Hc Hq Hd.
    - simpl. rewrite app_nil_r. auto.
    - change (run (flat_map (fun d => [EvSchedule d; EvReactor]) (d :: ds)) st)
        with (run (flat_map (fun d => [EvSchedule d; EvReactor]) ds)
                (run [EvSchedule d; EvReactor] st)).
      destruct (round_at_rest st d) as (Hf' & Ha & Hk & Hc' & Hq' & Hd' & Hl);
        try assumption.
      { intros n a kw. rewrite Hf. apply Hreq. }
      destruct (IH (run [EvSchedule d; EvReactor] st)) as (H1 & H2 & H3);
        try assumption.
      { rewrite Hf'. exact Hf. }
      split; [| split; assumption].
      rewrite H1, Hl, Ha, Hk, <- app_assoc. reflexivity. }
  apply (Hgen ds (__init__ func a kw now)); reflexivity.
Qed.

(** X10: a direct invocation clears the marker and leaves the delayed
    call in the queue: after [schedule], a direct invocation and another
    [schedule], two delayed calls will invoke the instance. *)
Theorem direct_call_keeps_pending st (d d' : Z) :
  idle st ->
  requests (_func st (length (calls st)) (_a st) (_kw st)) = [] ->
  let st1 := run [EvSchedule d; EvCall] st in
  let st2 := run [EvSchedule d; EvCall; EvSchedule d'] st in
  _call st1 = None
  /\ calls st1 = calls st ++ [(_a st, _kw st)]
  /\ self_calls st1
     = [mkDelayed (next_handle st) (seconds st + d) CallSelf]
  /\ self_calls st2
     = [mkDelayed (next_handle st) (seconds st + d) CallSelf;
        mkDelayed (next_handle st1) (seconds st + d') CallSelf].
Proof.
  intros [Hc Hs] Hreq st1 st2.
  assert (H1 : _call st1 = None /\ seconds st1 = seconds st
    /\ calls st1 = calls st ++ [(_a st, _kw st)]
    /\ self_calls st1
       = [mkDelayed (next_handle st) (seconds st + d) CallSelf]).
  { unfold st1, run. simpl. rewrite schedule_idle by assumption.
    unfold __call__, invoke. simpl. rewrite Hreq. simpl.
    destruct (outcome _); cbn -[release].
    - match goal with |- context [release ?ds ?s] =>
        destruct (release_frame s ds) as (Hl & Hcall & _ & Hsec & _ & Hq)
      end.
      split; [exact Hcall |]. split; [exact Hsec |]. split; [exact Hl |].
      unfold self_calls in *. cbn -[release]. rewrite Hq. cbn -[release].
      rewrite !filter_app, Hs. cbn -[release].
      match goal with |- _ ++ ?l = _ => assert (Hnil : l = []) end.
      { apply self_calls_nil_list. apply Forall_forall. intros x Hx.
        apply elem_of_lookup_imap in Hx as (i & y & -> & _). discriminate. }
      rewrite Hnil. reflexivity.
    - repeat (split; [reflexivity |]).
      unfold self_calls in *. simpl. rewrite filter_app, Hs. reflexivity. }
  destruct H1 as (Hc1 & Hsec1 & Hl1 & Hs1).
  split; [exact Hc1 |]. split; [exact Hl1 |]. split; [exact Hs1 |].
  change st2 with (schedule d' st1).
  rewrite schedule_idle by exact Hc1.
  unfold self_calls in *. simpl. rewrite filter_app, Hs1, Hsec1. reflexivity.
Qed.

End CallLaterOnceFacts.


(** An instance with one waiter and a pending call whose callable raises:
    neither the firing itself nor the reactor run that performs it releases
    the waiter. *)
Lemma call_raising_keeps_waiters :
  let st := once.run [once.EvWait; once.EvSchedule 3]
              (once.__init__ once.sample_func (-7) tt 100) in
  let st' := once.run [once.EvReactor] st in
  fst (once.__call__ st) = Raise (OtherError "boom")
  /\ ~ once.released (once._deferreds st) (snd (once.__call__ st))
  /\ once.errors st' = [OtherError "boom"]
  /\ once._deferreds st' = [0%nat]
  /\ once.delayed st' = []
  /\ once.resolved st' = [].
Proof.
  split; [reflexivity |]. split; [| repeat split].
  intros Hrel. destruct (Hrel 0%nat) as [h Hin]; [left |].
  vm_compute in Hin. apply list_elem_of_singleton in Hin. discriminate Hin.
Defined.

Lemma call_fires_witness :
  let st := once.run [once.EvWait; once.EvSchedule 3]
              (once.__init__ once.sample_func 7 tt 100) in
  once._call (snd (once.__call__ st)) = Some 1%nat
  /\ fst (once.__call__ st) = Return 7
  /\ once._deferreds (snd (once.__call__ st)) = []
  /\ once.released (once._deferreds st) (snd (once.__call__ st)).
Proof.
  intros st.
  destruct (call_fires st) as (_ & Hfresh & _ & Hret & _).
  destruct (Hfresh 5 eq_refl) as [Hc _].
  destruct (Hret 7 eq_refl) as (Hv & Hd & Hr).
  split; [exact Hc |]. split; [exact Hv |]. split; [exact Hd | exact Hr].
Defined.


(** ** Installing and verifying the reactor *)

Section InstallFacts.

Import install.

Variable load_object : string -> result pyobject.
Variable issubclass : pyclass -> pyclass -> bool.
Variable policy_loop_class : policy -> pyclass.
Variable get_event_loop_creates : bool.

(** Every class is a subclass of itself. *)
Hypothesis issubclass_refl : forall c, issubclass c c = true.

Local Abbreviation set_asyncio_event_loop :=
  (set_asyncio_event_loop load_object issubclass policy_loop_class
     get_event_loop_creates).
Local Abbreviation current_or_new_event_loop :=
  (current_or_new_event_loop policy_loop_class get_event_loop_creates).
Local Abbreviation install_reactor :=
  (install_reactor load_object issubclass policy_loop_class
     get_event_loop_creates).
Local Abbreviation verify_installed_reactor :=
  (verify_installed_reactor load_object).

Lemma policy_step w :
  exists w', set_asyncio_event_loop_policy w = (Return tt, w')
    /\ sys_platform w' = sys_platform w
    /\ current_loop w' = current_loop w
    /\ next_loop w' = next_loop w
    /\ installed w' = installed w
    /\ (forall w1, sys_platform w1 = sys_platform w' ->
          event_loop_policy w1 = event_loop_policy w' ->
          set_asyncio_event_loop_policy w1 = (Return tt, w1)).
Proof.
  unfold set_asyncio_event_loop_policy, bind, get, modify, ret. simpl.
  destruct (bool_decide (sys_platform w = "win32")) eqn:Hp;
    destruct (bool_decide (event_loop_policy w = WindowsSelectorEventLoopPolicy))
      eqn:Hq; simpl; eexists; (split; [reflexivity |]); simpl;
    repeat (split; [reflexivity |]); intros w1 H1 H2; rewrite H1, H2;
    try rewrite Hp; try rewrite Hq; simpl; reflexivity.
Qed.

Lemma current_or_new_bound w el :
  current_loop w = Some el -> current_or_new_event_loop w = (Return el, w).
Proof.
  intros H. unfold install.current_or_new_event_loop, try_except,
    get_event_loop, bind, get. simpl. rewrite H. reflexivity.
Qed.

Lemma current_or_new_spec w :
  exists el w1, current_or_new_event_loop w = (Return el, w1)
    /\ current_loop w1 = Some el /\ same_process w w1.
Proof.
  destruct (current_loop w) as [el |] eqn:H.
  - exists el, w. rewrite (current_or_new_bound w el H).
    repeat split; assumption.
  - unfold install.current_or_new_event_loop, try_except, get_event_loop,
      new_event_loop, construct_loop, set_event_loop, bind, get, modify, ret,
      raise. simpl. rewrite H.
    destruct get_event_loop_creates; simpl; do 2 eexists;
      (split; [reflexivity |]); repeat split.
Qed.

Lemma loop_step path w r w1 :
  set_asyncio_event_loop path w = (r, w1) ->
  same_process w w1
  /\ match r with
     | Return el =>
         current_loop w1 = Some el
         /\ (forall w3, current_loop w3 = Some el ->
               set_asyncio_event_loop path w3 = (Return el, w3))
     | Raise e => e = ReactorAlreadyInstalledError -> w1 = w
     end.
Proof.
  destruct path as [p |]; unfold install.set_asyncio_event_loop.
  - unfold _get_asyncio_event_loop, bind at 1, lift.
    destruct (load_object p) as [obj | e] eqn:Hl.
    + unfold bind at 1.
      destruct (current_or_new_spec w) as (el0 & w2 & Hc & Hcur & Hsame).
      rewrite Hc. destruct obj as [c | c | tag]; simpl.
      * unfold bind at 1, ret at 1.
        destruct (issubclass (loop_class el0) c) eqn:Hs; simpl.
        -- intros [= <- <-]. split; [exact Hsame |]. split; [exact Hcur |].
           intros w3 H3.
           rewrite (bind_Return _ _ w3 (PyClass c) w3 eq_refl).
           rewrite (bind_Return _ _ w3 el0 w3 (current_or_new_bound w3 el0 H3)).
           simpl. unfold bind, ret. rewrite Hs. reflexivity.
        -- unfold bind, ret, construct_loop, set_event_loop, get, modify.
           simpl. intros [= <- <-]. split; [exact Hsame |].
           split; [reflexivity |].
           intros w3 H3. rewrite (current_or_new_bound w3 _ H3). simpl.
           rewrite issubclass_refl. reflexivity.
      * unfold bind, raise. simpl. intros [= <- <-].
        split; [exact Hsame | discriminate].
      * unfold bind, raise. simpl. intros [= <- <-].
        split; [exact Hsame | discriminate].
    + intros [= <- <-]. split; [repeat split | reflexivity].
  - intros H. destruct (current_or_new_spec w) as (el & w2 & Hc & Hcur & Hsame).
    rewrite Hc in H. injection H as <- <-.
    split; [exact Hsame |]. split; [exact Hcur |].
    intros w3 H3. apply current_or_new_bound, H3.
Qed.

(** The suppressed body of the asyncio branch. *)
Lemma asyncio_branch_again l w w1 :
  suppress is_ReactorAlreadyInstalledError
    (do event_loop <- set_asyncio_event_loop l ;;
     asyncioreactor_install event_loop) w = (Return tt, w1) ->
  sys_platform w1 = sys_platform w
  /\ event_loop_policy w1 = event_loop_policy w
  /\ suppress is_ReactorAlreadyInstalledError
       (do event_loop <- set_asyncio_event_loop l ;;
        asyncioreactor_install event_loop) w1 = (Return tt, w1).
Proof.
  unfold suppress.
  destruct (bind (set_asyncio_event_loop l) _ w) as [r2 w2] eqn:Hbody.
  apply bind_inv in Hbody as [(el & w0 & Hs & Hi) | (e & Hs & ->)].
  - destruct (loop_step l w (Return el) w0 Hs)
      as ((Hp & Hq & Hinst) & Hcur & Hagain).
    unfold asyncioreactor_install, installReactor, bind, get, modify, raise
      in Hi. simpl in Hi.
    destruct (installed w0) as [r0 |] eqn:Hw0; simpl in Hi;
      injection Hi as <- <-; simpl; intros [= <-].
    + split; [exact Hp |]. split; [exact Hq |].
      rewrite (bind_Return _ _ _ el w0 (Hagain w0 Hcur)).
      unfold asyncioreactor_install, installReactor, bind, get, raise. simpl.
      rewrite Hw0. reflexivity.
    + split; [exact Hp |]. split; [exact Hq |].
      match goal with |- context [bind _ _ ?w3] =>
        rewrite (bind_Return _ _ w3 el w3 (Hagain w3 Hcur))
      end.
      reflexivity.
  - destruct (loop_step l w (Raise e) w2 Hs) as ((Hp & Hq & _) & Hw).
    destruct (is_ReactorAlreadyInstalledError e) eqn:He; intros [= <-].
    apply bool_decide_eq_true in He. rewrite (Hw He) in *.
    split; [reflexivity |]. split; [reflexivity |].
    rewrite (bind_Raise _ _ _ e w Hs).
    subst e. reflexivity.
Qed.

(** The suppressed call of the installer of another reactor. *)
Lemma installer_branch_again obj w w1 :
  suppress is_ReactorAlreadyInstalledError (call_installer obj) w
  = (Return tt, w1) ->
  suppress is_ReactorAlreadyInstalledError (call_installer obj) w1
  = (Return tt, w1).
Proof.
  unfold suppress, call_installer, installReactor, bind, get, modify, raise,
    ret. destruct obj as [c | c | tag]; simpl.
  - intros [= <-]. reflexivity.
  - destruct (installed w) as [r0 |] eqn:Hw; simpl; intros [= <-]; simpl.
    + rewrite Hw. reflexivity.
    + reflexivity.
  - discriminate.
Qed.

(** C3: when [install_reactor] has returned, calling it again with the
    same reactor path and the same event loop path returns normally and
    leaves the process as it is: the installed reactor and the current
    event loop are the same objects, the already-installed error being
    suppressed; and [set_asyncio_event_loop] called again with the same
    path returns the loop that is already current and constructs none. *)
Theorem reinstall_is_noop :
  (forall reactor_path event_loop_path w w1,
     install_reactor reactor_path event_loop_path w = (Return tt, w1) ->
     install_reactor reactor_path event_loop_path w1 = (Return tt, w1))
  /\ (forall event_loop_path w el w1,
        set_asyncio_event_loop event_loop_path w = (Return el, w1) ->
        current_loop w1 = Some el
        /\ set_asyncio_event_loop event_loop_path w1 = (Return el, w1)).
Proof.
  split.
  2:{ intros l w el w1 H.
      destruct (loop_step l w (Return el) w1 H) as (_ & Hcur & Hagain).
      split; [exact Hcur | exact (Hagain w1 Hcur)]. }
  intros rp l w w1 H. unfold install.install_reactor in *.
  apply bind_inv in H as [(obj & w0 & Hl & H) | (e & _ & [=])].
  unfold lift in Hl. injection Hl as Hl <-.
  rewrite (bind_Return _ _ w1 obj w1) by (unfold lift; rewrite Hl; reflexivity).
  destruct (bool_decide (obj = PyClass AsyncioSelectorReactor)) eqn:Hb.
  - destruct (policy_step w) as (w' & Hp & Hpl & _ & _ & _ & Hidem).
    rewrite (bind_Return _ _ _ tt w' Hp) in H.
    destruct (asyncio_branch_again l w' w1 H) as (H1 & H2 & Hagain).
    rewrite (bind_Return _ _ _ tt w1 (Hidem w1 H1 H2)). exact Hagain.
  - apply bind_inv in H as [(inst & w0 & Hi & H) | (e & _ & [=])].
    unfold lift in Hi. injection Hi as Hi <-.
    rewrite (bind_Return _ _ w1 inst w1)
      by (unfold lift; rewrite Hi; reflexivity).
    apply (installer_branch_again inst w w1 H).
Qed.

Lemma is_reactor_installed_false w :
  is_reactor_installed w = false <-> installed w = None.
Proof.
  unfold is_reactor_installed. rewrite bool_decide_eq_false.
  destruct (installed w); split; intros H; try done.
  destruct H. eauto.
Qed.

(** C6: [verify_installed_reactor] raises [RuntimeError] when no reactor
    is installed; when one is installed and the path resolves, it raises
    [RuntimeError] if the class of the installed reactor is not the
    resolved object, with a message that names the installed class and the
    requested path, and returns normally if it is.  The process is left as
    it was. *)
Theorem verify_installed_reactor_spec reactor_path w :
  (is_reactor_installed w = false ->
     verify_installed_reactor reactor_path w
     = (Raise (RuntimeError
          "verify_installed_reactor() called without an installed reactor."),
        w))
  /\ (forall reactor expected,
        installed w = Some reactor ->
        load_object reactor_path = Return expected ->
        (PyClass (reactor_class reactor) <> expected ->
           verify_installed_reactor reactor_path w
           = (Raise (RuntimeError
                ("The installed reactor ("
                 +:+ global_object_name (reactor_class reactor)
                 +:+ ") does not match the requested one ("
                 +:+ reactor_path +:+ ")")), w))
        /\ (PyClass (reactor_class reactor) = expected ->
             verify_installed_reactor reactor_path w = (Return tt, w))).
Proof.
  unfold install.verify_installed_reactor, bind, get, lift, raise, ret.
  split.
  - intros H. apply is_reactor_installed_false in H. rewrite H. reflexivity.
  - intros reactor expected Hi Hl. rewrite Hi, Hl. split; intros H.
    + rewrite bool_decide_eq_false_2 by exact H. reflexivity.
    + rewrite bool_decide_eq_true_2 by exact H. reflexivity.
Qed.

(** *** Import paths *)

Lemma string_app_cons x (a b : string) :
  String x a +:+ b = String x (a +:+ b).
Proof. reflexivity. Qed.

Lemma string_app_assoc (a b c : string) : (a +:+ b) +:+ c = a +:+ (b +:+ c).
Proof.
  induction a as [| x a IH]; [reflexivity |].
  rewrite !string_app_cons, IH. reflexivity.
Qed.

Lemma split_dot_cons s : exists w ws, split_dot s = w :: ws.
Proof.
  induction s as [| c s (w & ws & IH)]; simpl; [eauto |].
  destruct (decide (c = dot)); [eauto |]. rewrite IH. eauto.
Qed.

Lemma join_split_dot s : join_dot (split_dot s) = s.
Proof.
  induction s as [| c s IH]; [reflexivity |]. simpl.
  destruct (split_dot_cons s) as (w & ws & Hs). rewrite Hs in *.
  destruct (decide (c = dot)) as [-> | _].
  - change (join_dot (EmptyString :: w :: ws))
      with (EmptyString +:+ "." +:+ join_dot (w :: ws)).
    rewrite IH. reflexivity.
  - destruct ws as [| w' ws].
    + simpl in *. rewrite IH. reflexivity.
    + change (join_dot (String c w :: w' :: ws))
        with (String c w +:+ "." +:+ join_dot (w' :: ws)).
      change (join_dot (w :: w' :: ws))
        with (w +:+ "." +:+ join_dot (w' :: ws)) in IH.
      rewrite string_app_cons, IH. reflexivity.
Qed.

Lemma split_dot_app (m name : string) :
  split_dot (m +:+ "." +:+ name) = split_dot m ++ split_dot name.
Proof.
  induction m as [| c m IH]; [reflexivity |].
  rewrite string_app_cons. simpl.
  destruct (decide (c = dot)); [rewrite IH; reflexivity |].
  rewrite IH. destruct (split_dot_cons m) as (w & ws & ->). reflexivity.
Qed.

Lemma join_dot_snoc (ws : list string) (w x : string) :
  join_dot ((w :: ws) ++ [x]) = join_dot (w :: ws) +:+ "." +:+ x.
Proof.
  revert w. induction ws as [| w' ws IH]; intros w; [reflexivity |].
  change (join_dot ((w :: w' :: ws) ++ [x]))
    with (w +:+ "." +:+ join_dot ((w' :: ws) ++ [x])).
  change (join_dot (w :: w' :: ws)) with (w +:+ "." +:+ join_dot (w' :: ws)).
  rewrite IH, !string_app_assoc. reflexivity.
Qed.

(** X11: splitting a path at the dots and joining the parts gives the
    path back; the installer that [install_reactor] loads for the reactor
    path [m.name] is [m.install], and for a path without a dot it is
    [install]. *)
Theorem installer_path (m name : string) :
  split_dot name = [name] ->
  join_dot (split_dot (m +:+ "." +:+ name)) = m +:+ "." +:+ name
  /\ join_dot (removelast (split_dot (m +:+ "." +:+ name)) ++ ["install"])
     = m +:+ ".install"
  /\ join_dot (removelast (split_dot name) ++ ["install"]) = "install".
Proof.
  intros Hname. split; [apply join_split_dot |]. split.
  - rewrite split_dot_app, Hname, removelast_last.
    destruct (split_dot_cons m) as (w & ws & Hm). rewrite Hm.
    rewrite join_dot_snoc, <- Hm, join_split_dot. reflexivity.
  - rewrite Hname. reflexivity.
Qed.

(** *** Event loops and installation *)

Lemma loop_instance p w el w1 :
  set_asyncio_event_loop (Some p) w = (Return el, w1) ->
  exists c, load_object p = Return (PyClass c)
            /\ issubclass (loop_class el) c = true.
Proof.
  unfold install.set_asyncio_event_loop, _get_asyncio_event_loop.
  intros H. apply bind_inv in H as [(obj & w0 & Hl & H) | (e & _ & [=])].
  unfold lift in Hl. injection Hl as Hl <-.
  apply bind_inv in H as [(el0 & w2 & _ & H) | (e & _ & [=])].
  destruct obj as [c | c | tag].
  - exists c. split; [exact Hl |]. simpl in H.
    unfold bind at 1, ret at 1 in H.
    destruct (issubclass (loop_class el0) c) eqn:Hs; simpl in H.
    + injection H as <- _. exact Hs.
    + unfold bind, ret, construct_loop, set_event_loop, get, modify in H.
      simpl in H. injection H as <- _. apply issubclass_refl.
  - simpl in H. unfold bind, raise in H. discriminate.
  - simpl in H. unfold bind, raise in H. discriminate.
Qed.

(** X12: [set_asyncio_event_loop] without a path never raises: it returns
    the loop that is current, constructing one only when none is.  With
    the path of a class it returns a loop that is current afterwards and
    an instance of the class, and a current loop that already is one is
    returned with nothing constructed or changed. *)
Theorem event_loop_resolved :
  (forall w, exists el w1,
     set_asyncio_event_loop None w = (Return el, w1)
     /\ current_loop w1 = Some el
     /\ (forall el0, current_loop w = Some el0 -> el = el0 /\ w1 = w)
     /\ (current_loop w = None -> next_loop w1 = S (next_loop w)))
  /\ (forall p c w, load_object p = Return (PyClass c) ->
        exists el w1,
          set_asyncio_event_loop (Some p) w = (Return el, w1)
          /\ current_loop w1 = Some el
          /\ issubclass (loop_class el) c = true
          /\ (forall el0, current_loop w = Some el0 ->
                issubclass (loop_class el0) c = true ->
                el = el0 /\ w1 = w)).
Proof.
  assert (Hnone : forall w, exists el w1,
     current_or_new_event_loop w = (Return el, w1)
     /\ current_loop w1 = Some el
     /\ (forall el0, current_loop w = Some el0 -> el = el0 /\ w1 = w)
     /\ (current_loop w = None -> next_loop w1 = S (next_loop w))).
  { intros w. destruct (current_loop w) as [el |] eqn:H.
    - exists el, w. rewrite (current_or_new_bound w el H).
      split; [reflexivity |]. split; [exact H |].
      split; [intros el0 [= <-]; auto | discriminate].
    - unfold install.current_or_new_event_loop, try_except, get_event_loop,
        new_event_loop, construct_loop, set_event_loop, bind, get, modify,
        ret, raise. simpl. rewrite H.
      destruct get_event_loop_creates; simpl; do 2 eexists;
        (split; [reflexivity |]); (split; [reflexivity |]);
        (split; [discriminate | reflexivity]). }
  split; [exact Hnone |].
  intros p c w Hl. unfold install.set_asyncio_event_loop,
    _get_asyncio_event_loop.
  rewrite (bind_Return _ _ w (PyClass c) w)
    by (unfold lift; rewrite Hl; reflexivity).
  destruct (Hnone w) as (el0 & w2 & Hc & Hcur & Hsame & _).
  rewrite (bind_Return _ _ w el0 w2 Hc). simpl.
  unfold bind at 1, ret at 1.
  destruct (issubclass (loop_class el0) c) eqn:Hs; simpl.
  - exists el0, w2. split; [reflexivity |]. split; [exact Hcur |].
    split; [exact Hs |]. intros el1 H1 _. apply Hsame, H1.
  - unfold bind, ret, construct_loop, set_event_loop, get, modify. simpl.
    do 2 eexists. split; [reflexivity |]. split; [reflexivity |].
    split; [apply issubclass_refl |].
    intros el1 H1 Hs1. destruct (Hsame el1 H1) as [<- _]. congruence.
Qed.

(** X13: [install_reactor] never replaces an installed reactor: whatever
    the paths and whether it returns or raises, a reactor that was
    installed before the call is the installed reactor after it. *)
Theorem installed_reactor_stays reactor_path event_loop_path w r :
  installed w = Some r ->
  installed (snd (install_reactor reactor_path event_loop_path w)) = Some r.
Proof.
  intros Hi. unfold install.install_reactor.
  unfold bind at 1, lift.
  destruct (load_object reactor_path) as [obj | e]; [| exact Hi].
  destruct (bool_decide (obj = PyClass AsyncioSelectorReactor)).
  - destruct (policy_step w) as (w' & Hp & _ & _ & _ & Hi' & _).
    rewrite (bind_Return _ _ _ tt w' Hp). rewrite <- Hi' in Hi.
    unfold suppress.
    destruct (bind (set_asyncio_event_loop event_loop_path) _ w')
      as [r2 w2] eqn:Hbody.
    assert (Hw2 : installed w2 = Some r).
    { apply bind_inv in Hbody as [(el & w0 & Hs & Hin) | (e & Hs & _)].
      - destruct (loop_step _ _ _ _ Hs) as ((_ & _ & Hsi) & _).
        unfold asyncioreactor_install, installReactor, bind, get, raise
          in Hin. simpl in Hin. rewrite Hsi, Hi in Hin.
        injection Hin as _ <-. congruence.
      - destruct (loop_step _ _ _ _ Hs) as ((_ & _ & Hsi) & _). congruence. }
    destruct r2 as [[] | e]; [exact Hw2 |].
    destruct (is_ReactorAlreadyInstalledError e); exact Hw2.
  - unfold bind at 1.
    destruct (load_object _) as [inst | e]; [| exact Hi].
    unfold suppress, call_installer, installReactor, bind, get, raise, ret.
    destruct inst; simpl; try exact Hi.
    rewrite Hi. simpl. exact Hi.
Qed.

(** X14: for a reactor that is not the asyncio reactor, [install_reactor]
    ignores the event loop path and leaves the asyncio policy, the current
    event loop and the loops constructed so far as they were. *)
Theorem other_reactor_leaves_loop reactor_path l l' w obj :
  load_object reactor_path = Return obj ->
  obj <> PyClass AsyncioSelectorReactor ->
  install_reactor reactor_path l w = install_reactor reactor_path l' w
  /\ current_loop (snd (install_reactor reactor_path l w)) = current_loop w
  /\ next_loop (snd (install_reactor reactor_path l w)) = next_loop w
  /\ event_loop_policy (snd (install_reactor reactor_path l w))
     = event_loop_policy w.
Proof.
  intros Hl Hne. unfold install.install_reactor.
  rewrite !(bind_Return _ _ w obj w)
    by (unfold lift; rewrite Hl; reflexivity).
  rewrite bool_decide_eq_false_2 by exact Hne. cbv zeta.
  split; [reflexivity |].
  match goal with |- context [lift (load_object ?x)] =>
    remember (load_object x) as r eqn:E
  end.
  clear E. destruct r as [inst | e].
  - rewrite !(bind_Return _ _ w inst w) by reflexivity.
    unfold suppress, call_installer, installReactor, bind, get, raise, ret,
      modify.
    destruct inst; simpl; auto.
    destruct (installed w); simpl; auto.
  - rewrite !(bind_Raise _ _ w e w) by reflexivity.
    auto.
Qed.

(** X15: installing the asyncio reactor in a process without reactor and
    then verifying it succeeds: the installed reactor is the asyncio
    reactor on the loop that is current, [verify_installed_reactor] with
    the same path returns, [is_asyncio_reactor_installed] returns [True],
    and [verify_installed_asyncio_event_loop] with the same loop path
    returns. *)
Theorem install_then_verify reactor_path event_loop_path w w1 :
  load_object reactor_path = Return (PyClass AsyncioSelectorReactor) ->
  installed w = None ->
  (forall p, event_loop_path = Some p ->
     exists obj, load_object p = Return obj) ->
  install_reactor reactor_path event_loop_path w = (Return tt, w1) ->
  exists el,
    installed w1 = Some (mkReactor AsyncioSelectorReactor (Some el))
    /\ current_loop w1 = Some el
    /\ verify_installed_reactor reactor_path w1 = (Return tt, w1)
    /\ is_asyncio_reactor_installed issubclass w1 = (Return true, w1)
    /\ (forall p, event_loop_path = Some p ->
          verify_installed_asyncio_event_loop load_object issubclass p w1
          = (Return tt, w1)).
Proof.
  intros Hl Hi Hres H. unfold install.install_reactor in H.
  rewrite (bind_Return _ _ w _ w) in H
    by (unfold lift; rewrite Hl; reflexivity).
  rewrite bool_decide_eq_true_2 in H by reflexivity.
  destruct (policy_step w) as (w' & Hp & _ & _ & _ & Hi' & _).
  rewrite (bind_Return _ _ _ tt w' Hp) in H. rewrite <- Hi' in Hi.
  unfold suppress in H.
  destruct (bind (set_asyncio_event_loop event_loop_path) _ w')
    as [r2 w2] eqn:Hbody.
  apply bind_inv in Hbody as [(el & w0 & Hs & Hin) | (e & Hs & ->)].
  - destruct (loop_step _ _ _ _ Hs) as ((_ & _ & Hsi) & Hcur & _).
    unfold asyncioreactor_install, installReactor, bind, get, modify
      in Hin. simpl in Hin. rewrite Hsi, Hi in Hin. simpl in Hin.
    injection Hin as <- <-. injection H as <-.
    exists el. split; [reflexivity |]. split; [exact Hcur |].
    split.
    { unfold install.verify_installed_reactor, bind, get, lift, ret. simpl.
      rewrite Hl. reflexivity. }
    split.
    { unfold is_asyncio_reactor_installed, bind, get, ret. simpl.
      rewrite issubclass_refl. reflexivity. }
    intros p ->. destruct (loop_instance p w' el w0 Hs) as (c & Hlp & Hsub).
    unfold verify_installed_asyncio_event_loop, bind, get, lift, ret,
      get_asyncioEventloop, isinstance. simpl. rewrite Hlp. simpl.
    rewrite Hsub. reflexivity.
  - exfalso. destruct (is_ReactorAlreadyInstalledError e) eqn:He;
      [| discriminate].
    apply bool_decide_eq_true in He. subst e.
    destruct event_loop_path as [p |].
    + destruct (Hres p eq_refl) as [obj Hobj].
      unfold install.set_asyncio_event_loop, _get_asyncio_event_loop in Hs.
      rewrite (bind_Return _ _ w' obj w') in Hs
        by (unfold lift; rewrite Hobj; reflexivity).
      destruct (current_or_new_spec w') as (el0 & w3 & Hc & _).
      rewrite (bind_Return _ _ w' el0 w3 Hc) in Hs.
      destruct obj; simpl in Hs; unfold bind, ret, raise, construct_loop,
        set_event_loop, get, modify in Hs; simpl in Hs;
        try discriminate Hs.
      destruct (issubclass (loop_class el0) c); simpl in Hs; discriminate Hs.
    + destruct (current_or_new_spec w') as (el0 & w3 & Hc & _).
      unfold install.set_asyncio_event_loop in Hs. rewrite Hc in Hs.
      discriminate Hs.
Qed.

(** X16: [verify_installed_asyncio_event_loop] raises [RuntimeError] when
    no reactor is installed; with the asyncio reactor installed and the
    path of a class, it returns when the loop of the reactor is an
    instance of the class and otherwise raises [RuntimeError] with a
    message that names the class of the installed loop and the requested
    class.  The process is left as it was. *)
Theorem verify_installed_loop_spec loop_path w :
  (installed w = None ->
     verify_installed_asyncio_event_loop load_object issubclass loop_path w
     = (Raise (RuntimeError
          "verify_installed_asyncio_event_loop() called without an installed reactor."),
        w))
  /\ (forall rc el c,
        installed w = Some (mkReactor rc (Some el)) ->
        load_object loop_path = Return (PyClass c) ->
        (issubclass (loop_class el) c = true ->
           verify_installed_asyncio_event_loop load_object issubclass
             loop_path w = (Return tt, w))
        /\ (issubclass (loop_class el) c = false ->
             verify_installed_asyncio_event_loop load_object issubclass
               loop_path w
             = (Raise (RuntimeError
                  ("Scrapy found an asyncio Twisted reactor already installed, and its event loop class ("
                   +:+ global_object_name (loop_class el)
                   +:+ ") does not match the one specified in the ASYNCIO_EVENT_LOOP setting ("
                   +:+ global_object_name c +:+ ")")), w))).
Proof.
  unfold verify_installed_asyncio_event_loop, bind, get, lift, ret, raise,
    get_asyncioEventloop, isinstance. split.
  - intros ->. reflexivity.
  - intros rc el c -> ->. simpl. split; intros ->; reflexivity.
Qed.

(** X26: [install_reactor] touches the asyncio policy only on Windows and
    only for the asyncio reactor: elsewhere the policy is the one before
    the call; on [win32] with the asyncio reactor it is the selector
    policy afterwards, whether the call returns or raises.  The platform
    is never changed. *)
Theorem policy_after_install reactor_path event_loop_path w :
  let w1 := snd (install_reactor reactor_path event_loop_path w) in
  sys_platform w1 = sys_platform w
  /\ (sys_platform w <> "win32" ->
      event_loop_policy w1 = event_loop_policy w)
  /\ (sys_platform w = "win32" ->
      load_object reactor_path = Return (PyClass AsyncioSelectorReactor) ->
      event_loop_policy w1 = WindowsSelectorEventLoopPolicy).
Proof.
  intros w1. unfold w1, install.install_reactor. clear w1.
  remember (load_object reactor_path) as r eqn:Hl. symmetry in Hl.
  destruct r as [obj | e]; cycle 1.
  { rewrite !(bind_Raise _ _ w e w) by reflexivity.
    simpl. split; [reflexivity | split; [reflexivity | discriminate]]. }
  rewrite !(bind_Return _ _ w obj w) by reflexivity.
  destruct (bool_decide (obj = PyClass AsyncioSelectorReactor)) eqn:Hb.
  - assert (Hpol : exists w',
      set_asyncio_event_loop_policy w = (Return tt, w')
      /\ sys_platform w' = sys_platform w
      /\ (sys_platform w <> "win32" ->
          event_loop_policy w' = event_loop_policy w)
      /\ (sys_platform w = "win32" ->
          event_loop_policy w' = WindowsSelectorEventLoopPolicy)).
    { unfold set_asyncio_event_loop_policy, bind, get, modify, ret. simpl.
      destruct (bool_decide (sys_platform w = "win32")) eqn:Hp;
        destruct (bool_decide (event_loop_policy w
                               = WindowsSelectorEventLoopPolicy)) eqn:Hq;
        simpl; eexists; (split; [reflexivity |]); simpl;
        (split; [reflexivity |]); split; intros H;
        first [ reflexivity
              | apply bool_decide_eq_true in Hq; exact Hq
              | apply bool_decide_eq_true in Hp; contradiction
              | apply bool_decide_eq_false in Hp; contradiction ]. }
    destruct Hpol as (w' & Hp & Hpl & Hoff & Hon).
    rewrite (bind_Return _ _ _ tt w' Hp).
    assert (Hbody : sys_platform
        (snd (suppress is_ReactorAlreadyInstalledError
                (do event_loop <- set_asyncio_event_loop event_loop_path ;;
                 asyncioreactor_install event_loop) w')) = sys_platform w'
      /\ event_loop_policy
          (snd (suppress is_ReactorAlreadyInstalledError
                  (do event_loop <- set_asyncio_event_loop event_loop_path ;;
                   asyncioreactor_install event_loop) w'))
         = event_loop_policy w').
    { unfold suppress.
      destruct (bind (set_asyncio_event_loop event_loop_path) _ w')
        as [r2 w2] eqn:Hbody.
      assert (Hw2 : sys_platform w2 = sys_platform w'
                    /\ event_loop_policy w2 = event_loop_policy w').
      { apply bind_inv in Hbody as [(el & w0 & Hs & Hin) | (e & Hs & _)].
        - destruct (loop_step _ _ _ _ Hs) as ((H1 & H2 & _) & _).
          unfold asyncioreactor_install, installReactor, bind, get, raise,
            modify in Hin. simpl in Hin.
          destruct (installed w0); simpl in Hin; injection Hin as _ <-;
            simpl; auto.
        - destruct (loop_step _ _ _ _ Hs) as ((H1 & H2 & _) & _). auto. }
      destruct r2 as [[] | e]; [exact Hw2 |].
      destruct (is_ReactorAlreadyInstalledError e); exact Hw2. }
    destruct Hbody as [-> ->].
    split; [exact Hpl |]. split; [exact Hoff |]. intros H _. exact (Hon H).
  - assert (Hne : obj <> PyClass AsyncioSelectorReactor)
      by (apply bool_decide_eq_false in Hb; exact Hb).
    cbv zeta.
    match goal with |- context [lift (load_object ?x)] =>
      remember (load_object x) as r eqn:E
    end.
    clear E.
    assert (Hsame : sys_platform
        (snd ((do installer <- lift r ;;
               suppress is_ReactorAlreadyInstalledError
                 (call_installer installer)) w)) = sys_platform w
      /\ event_loop_policy
          (snd ((do installer <- lift r ;;
                 suppress is_ReactorAlreadyInstalledError
                   (call_installer installer)) w)) = event_loop_policy w).
    { destruct r as [inst | e].
      - rewrite !(bind_Return _ _ w inst w) by reflexivity.
        unfold suppress, call_installer, installReactor, bind, get, raise,
          ret, modify.
        destruct inst; simpl; auto.
        destruct (installed w); simpl; auto.
      - rewrite !(bind_Raise _ _ w e w) by reflexivity. auto. }
    destruct Hsame as [-> ->].
    split; [reflexivity |]. split; [reflexivity |].
    intros _ [= ->]. contradiction.
Qed.

(** X27: installing a reactor other than the asyncio one in a process
    without reactor installs what the installer of its module installs,
    without a loop; [is_asyncio_reactor_installed] then tells whether that
    class is the asyncio reactor or a subclass of it, while before any
    installation it raises [RuntimeError] instead of answering. *)
Theorem other_reactor_installed reactor_path event_loop_path w obj c :
  load_object reactor_path = Return obj ->
  obj <> PyClass AsyncioSelectorReactor ->
  load_object (join_dot (removelast (split_dot reactor_path) ++ ["install"]))
  = Return (PyInstaller c) ->
  installed w = None ->
  exists w1,
    install_reactor reactor_path event_loop_path w = (Return tt, w1)
    /\ installed w1 = Some (mkReactor c None)
    /\ is_asyncio_reactor_installed issubclass w1
       = (Return (issubclass c AsyncioSelectorReactor), w1)
    /\ is_asyncio_reactor_installed issubclass w
       = (Raise (RuntimeError
            "is_asyncio_reactor_installed() called without an installed reactor."),
          w).
Proof.
  intros Hl Hne Hinst Hi. unfold install.install_reactor.
  rewrite (bind_Return _ _ w obj w) by (unfold lift; rewrite Hl; reflexivity).
  rewrite bool_decide_eq_false_2 by exact Hne. cbv zeta.
  rewrite (bind_Return _ _ w (PyInstaller c) w)
    by (unfold lift; rewrite Hinst; reflexivity).
  unfold is_asyncio_reactor_installed, suppress, call_installer,
    installReactor, bind, get, modify, raise, ret.
  simpl. rewrite Hi. simpl.
  eexists. split; [reflexivity |]. split; [reflexivity |].
  split; reflexivity.
Qed.

End InstallFacts.

Lemma reinstall_is_noop_witness :
  let install_uvloop :=
    install.install_reactor install.sample_load_object
      install.sample_issubclass install.sample_policy_loop_class false
      "twisted.internet.asyncioreactor.AsyncioSelectorReactor"
      (Some "uvloop.Loop") in
  let w1 := snd (install_uvloop install.fresh_world) in
  install_uvloop install.fresh_world = (Return tt, w1)
  /\ install_uvloop w1 = (Return tt, w1)
  /\ install.current_loop w1 = Some (install.mkLoop 1 install.UvLoop).
Proof.
  intros install_uvloop w1.
  assert (H : install_uvloop install.fresh_world = (Return tt, w1))
    by reflexivity.
  assert (Hrefl : forall c, install.sample_issubclass c c = true)
    by (intros c; apply bool_decide_eq_true_2; reflexivity).
  split; [exact H |]. split; [| reflexivity].
  exact (proj1 (reinstall_is_noop install.sample_load_object
                  install.sample_issubclass install.sample_policy_loop_class
                  false Hrefl) _ _ _ _ H).
Defined.

Lemma verify_installed_reactor_spec_witness :
  let w := snd (install.install_reactor install.sample_load_object
                  install.sample_issubclass install.sample_policy_loop_class
                  true "twisted.internet.selectreactor.SelectReactor" None
                  install.fresh_world) in
  install.verify_installed_reactor install.sample_load_object
    "twisted.internet.asyncioreactor.AsyncioSelectorReactor" w
  = (Raise (RuntimeError
       "The installed reactor (twisted.internet.selectreactor.SelectReactor) does not match the requested one (twisted.internet.asyncioreactor.AsyncioSelectorReactor)"),
     w)
  /\ install.verify_installed_reactor install.sample_load_object
       "twisted.internet.selectreactor.SelectReactor" w
     = (Return tt, w)
  /\ install.verify_installed_reactor install.sample_load_object
       "twisted.internet.selectreactor.SelectReactor" install.fresh_world
     = (Raise (RuntimeError
          "verify_installed_reactor() called without an installed reactor."),
        install.fresh_world).
Proof.
  intros w. split; [| split].
  - apply (proj2 (verify_installed_reactor_spec install.sample_load_object
                    "twisted.internet.asyncioreactor.AsyncioSelectorReactor" w)
             (install.mkReactor install.SelectReactor None)
             (install.PyClass install.AsyncioSelectorReactor));
      [reflexivity | reflexivity | discriminate].
  - apply (proj2 (verify_installed_reactor_spec install.sample_load_object
                    "twisted.internet.selectreactor.SelectReactor" w)
             (install.mkReactor install.SelectReactor None)
             (install.PyClass install.SelectReactor));
      reflexivity.
  - apply (proj1 (verify_installed_reactor_spec install.sample_load_object
                    "twisted.internet.selectreactor.SelectReactor"
                    install.fresh_world)).
    reflexivity.
Defined.

(** ** The memory-usage extension *)

Section MemoryUsageFacts.

Import memusage.

Variable str_MiB : Z -> string.

Local Abbreviation _send_report := (_send_report str_MiB).
Local Abbreviation _check_limit := (_check_limit str_MiB).
Local Abbreviation _check_warning := (_check_warning str_MiB).
Local Abbreviation engine_started := (engine_started str_MiB).

Implicit Types (st : state) (e : os) (es : list os).

Lemma count_app p st (xs : list effect) :
  count p (mkState (warned st) (notify_mails st) (limit st) (warning st)
             (check_interval st) (tasks st) (bot_name st) (stats st)
             (spider st) (out st ++ xs))
  = (count p st + length (List.filter p xs))%nat.
Proof. unfold count. simpl. rewrite List.filter_app, length_app. reflexivity. Qed.

Lemma send_report_ok e rcpts subj st :
  reportable st ->
  exists body,
    _send_report e rcpts subj st
    = (Return tt,
       mkState (warned st) (notify_mails st) (limit st) (warning st)
         (check_interval st) (tasks st) (bot_name st) (stats st) (spider st)
         (out st ++ [Mail rcpts subj body])).
Proof.
  intros [[startup Hs] [mx Hm]].
  unfold memusage._send_report, bind, get_value, get, ret, printed_MiB, emit,
    modify. simpl. rewrite Hs. simpl. rewrite Hm. simpl.
  eexists. reflexivity.
Qed.

Lemma reportable_set_value key value st :
  key <> "memusage/startup" -> key <> "memusage/max" ->
  reportable st -> reportable (snd (set_value key value st)).
Proof.
  intros H1 H2 [Hs Hm]. unfold reportable. simpl.
  rewrite !lookup_insert_ne by assumption. split; assumption.
Qed.

Lemma notified_mails key st stats' mails :
  notified key st stats' mails ->
  length (List.filter is_Mail mails)
  = match notify_mails st with [] => 0%nat | _ :: _ => 1%nat end
  /\ List.filter is_LogWarning mails = []
  /\ List.filter is_LogError mails = [].
Proof.
  unfold notified. destruct (notify_mails st).
  - intros [_ ->]. auto.
  - intros [_ (subj & body & ->)]. auto.
Qed.

Lemma check_warning_quiet e st :
  warned st = true \/ ~ get_virtual_size e > warning st ->
  _check_warning e st = (Return tt, st).
Proof.
  unfold memusage._check_warning, bind, get, ret. simpl.
  intros [-> | H]; [reflexivity |].
  destruct (warned st); [reflexivity |].
  rewrite bool_decide_eq_false_2 by exact H. reflexivity.
Qed.

Lemma check_warning_fire e st :
  reportable st -> warned st = false ->
  get_virtual_size e > warning st ->
  exists stats' mails,
    notified "memusage/warning_notified"
      (snd (set_value "memusage/warning_reached" 1 st)) stats' mails
    /\ _check_warning e st
       = (Return tt,
          mkState true (notify_mails st) (limit st) (warning st)
            (check_interval st) (tasks st) (bot_name st) stats' (spider st)
            (out st ++ LogWarning (MiB (warning st)) :: mails)).
Proof.
  intros Hrep Hw Hgt.
  unfold memusage._check_warning, bind at 1, get. simpl. rewrite Hw.
  rewrite bool_decide_eq_true_2 by exact Hgt.
  unfold notified. simpl.
  destruct (notify_mails st) as [| rcpt rcpts] eqn:Hmails.
  - do 2 eexists. split; [split; reflexivity |].
    unfold bind, set_value, emit, set_warned, modify, ret. simpl.
    rewrite Hmails. reflexivity.
  - unfold bind at 1, set_value at 1, modify at 1.
    unfold bind at 1, emit at 1, modify at 1. simpl.
    unfold bind at 1, bind at 1.
    match goal with |- context [memusage._send_report _ ?e0 ?r ?sj ?s1] =>
      destruct (send_report_ok e0 r sj s1) as [body Hb]
    end.
    { apply (reportable_set_value "memusage/warning_reached" 1 st);
        [discriminate | discriminate | exact Hrep]. }
    rewrite Hb. simpl.
    do 2 eexists. split; [split; [reflexivity | eauto] |].
    unfold set_value, set_warned, modify. simpl.
    rewrite Hmails, <- app_assoc. reflexivity.
Qed.

Lemma ticks_warned es st :
  warned st = true -> ticks _check_warning es st = st.
Proof.
  intros Hw. induction es as [| e es IH]; [reflexivity |].
  unfold ticks in *. simpl. unfold tick at 2.
  rewrite check_warning_quiet by (left; exact Hw). exact IH.
Qed.

(** C5: with the warned flag set a tick of the warning check does
    nothing; the first tick whose sample exceeds the threshold records
    [warning_reached], logs one warning, sends one report when there are
    recipients and sets the flag; so over any ticks of which one exceeds
    the threshold there is exactly one warning and at most one mail, and
    over any ticks at all never more than one. *)
Theorem warning_once st :
  reportable st ->
  (forall e, warned st = true -> _check_warning e st = (Return tt, st))
  /\ (forall e, warned st = false -> get_virtual_size e > warning st ->
        exists st', _check_warning e st = (Return tt, st')
          /\ warned st' = true
          /\ stats st' !! "memusage/warning_reached" = Some 1
          /\ count is_LogWarning st' = S (count is_LogWarning st)
          /\ count is_Mail st' = (count is_Mail st + one_if_recipients st)%nat)
  /\ (forall es, warned st = false ->
        Exists (fun e => get_virtual_size e > warning st) es ->
        let st' := ticks _check_warning es st in
        warned st' = true
        /\ count is_LogWarning st' = S (count is_LogWarning st)
        /\ count is_Mail st' = (count is_Mail st + one_if_recipients st)%nat)
  /\ (forall es,
        (count is_LogWarning (ticks _check_warning es st)
         <= S (count is_LogWarning st))%nat).
Proof.
  intros Hrep.
  assert (Hfire : forall e, warned st = false ->
            get_virtual_size e > warning st ->
            exists st', _check_warning e st = (Return tt, st')
              /\ warned st' = true
              /\ stats st' !! "memusage/warning_reached" = Some 1
              /\ count is_LogWarning st' = S (count is_LogWarning st)
              /\ count is_Mail st'
                 = (count is_Mail st + one_if_recipients st)%nat).
  { intros e Hw Hgt.
    destruct (check_warning_fire e st Hrep Hw Hgt)
      as (stats' & mails & Hn & Heq).
    eexists. split; [exact Heq |]. split; [reflexivity |].
    destruct (notified_mails _ _ _ _ Hn) as (Hm & Hlw & _).
    simpl in Hm. split; [| split].
    - unfold notified in Hn. simpl in Hn. simpl.
      destruct (notify_mails st); destruct Hn as [-> _].
      + apply lookup_insert_eq.
      + rewrite lookup_insert_ne by discriminate. apply lookup_insert_eq.
    - unfold count. simpl. rewrite List.filter_app, length_app. simpl.
      rewrite Hlw. simpl. lia.
    - unfold count. simpl. rewrite List.filter_app, length_app. simpl.
      rewrite Hm. reflexivity. }
  assert (Hticks : forall es, warned st = false ->
            Exists (fun e => get_virtual_size e > warning st) es ->
            let st' := ticks _check_warning es st in
            warned st' = true
            /\ count is_LogWarning st' = S (count is_LogWarning st)
            /\ count is_Mail st'
               = (count is_Mail st + one_if_recipients st)%nat).
  { intros es Hw. induction es as [| e es IH]; intros Hex; [inversion Hex |].
    unfold ticks. simpl. fold (ticks _check_warning es (tick _check_warning st e)).
    unfold tick.
    destruct (decide (get_virtual_size e > warning st)) as [Hgt | Hle].
    - destruct (Hfire e Hw Hgt) as (st1 & Heq & Hw1 & _ & Hc1 & Hc2).
      rewrite Heq. simpl. rewrite (ticks_warned es st1 Hw1). auto.
    - rewrite check_warning_quiet by (right; exact Hle). simpl.
      apply IH. inversion Hex; [contradiction | assumption]. }
  split; [intros e Hw; apply check_warning_quiet; left; exact Hw |].
  split; [exact Hfire |]. split; [exact Hticks |].
  intros es. destruct (warned st) eqn:Hw.
  - rewrite (ticks_warned es st Hw). lia.
  - destruct (Exists_dec (fun e => get_virtual_size e > warning st) es) as [Hex | Hno].
    + destruct (Hticks es eq_refl Hex) as (_ & -> & _). lia.
    + assert (Hq : ticks _check_warning es st = st).
      { clear Hticks. induction es as [| e es IH]; [reflexivity |].
        unfold ticks in *. simpl. unfold tick at 2.
        rewrite check_warning_quiet.
        - apply IH. intros H. apply Hno. right. exact H.
        - right. intros H. apply Hno. left. exact H. }
      rewrite Hq. lia.
Qed.

Lemma check_limit_fire e st :
  reportable st -> get_virtual_size e > limit st ->
  exists mails,
    notified "memusage/limit_notified"
      (snd (set_value "memusage/limit_reached" 1 st)) (limit_stats st) mails
    /\ _check_limit e st
       = (Return tt,
          mkState (warned st) (notify_mails st) (limit st) (warning st)
            (check_interval st) (tasks st) (bot_name st) (limit_stats st)
            (spider st)
            (out st ++ LogError (MiB (limit st)) :: mails ++ [shutdown st])).
Proof.
  intros Hrep Hgt.
  unfold memusage._check_limit, bind at 1, get. simpl.
  rewrite bool_decide_eq_true_2 by exact Hgt.
  unfold notified, limit_stats, shutdown. simpl.
  destruct (notify_mails st) as [| rcpt rcpts] eqn:Hmails.
  - eexists. split; [split; reflexivity |].
    unfold bind, set_value, emit, modify, ret. simpl.
    rewrite Hmails. destruct (spider st); simpl;
      rewrite <- app_assoc; reflexivity.
  - unfold bind at 1, set_value at 1, modify at 1.
    unfold bind at 1, emit at 1, modify at 1. simpl.
    unfold bind at 1, bind at 1.
    match goal with |- context [memusage._send_report _ ?e0 ?r ?sj ?s1] =>
      destruct (send_report_ok e0 r sj s1) as [body Hb]
    end.
    { apply (reportable_set_value "memusage/limit_reached" 1 st);
        [discriminate | discriminate | exact Hrep]. }
    rewrite Hb. simpl.
    eexists. split; [split; [reflexivity | eauto] |].
    unfold set_value, emit, modify. simpl.
    rewrite Hmails. destruct (spider st); simpl;
      rewrite <- !app_assoc; reflexivity.
Qed.

Lemma limit_stats_again st st1 :
  notify_mails st1 = notify_mails st -> stats st1 = limit_stats st ->
  limit_stats st1 = limit_stats st.
Proof.
  unfold limit_stats. intros -> ->. destruct (notify_mails st).
  - apply insert_insert_eq.
  - apply map_eq. intros k. rewrite !lookup_insert.
    repeat case_decide; reflexivity.
Qed.

(** C4, as the code has it: the limit check keeps no record of a breach.
    Each tick whose sample exceeds the limit logs one error, sends one
    report when there are recipients, and sets [limit_reached] (and
    [limit_notified] with recipients) to 1: over [n] such ticks there are
    [n] error logs and [n] reports, while the statistics are after every
    tick what they were after the first. *)
Theorem limit_every_tick st es :
  reportable st ->
  Forall (fun e => get_virtual_size e > limit st) es ->
  let st' := ticks _check_limit es st in
  count is_LogError st' = (count is_LogError st + length es)%nat
  /\ count is_Mail st'
     = (count is_Mail st + one_if_recipients st * length es)%nat
  /\ (es <> [] -> stats st' = limit_stats st)
  /\ (es <> [] -> stats st' !! "memusage/limit_reached" = Some 1)
  /\ (es <> [] -> notify_mails st <> [] ->
      stats st' !! "memusage/limit_notified" = Some 1).
Proof.
  intros Hrep Hall.
  assert (Hgen : forall es st,
    reportable st ->
    Forall (fun e => get_virtual_size e > limit st) es ->
    let st' := ticks _check_limit es st in
    count is_LogError st' = (count is_LogError st + length es)%nat
    /\ count is_Mail st'
       = (count is_Mail st + one_if_recipients st * length es)%nat
    /\ (es <> [] -> stats st' = limit_stats st)).
  { clear. intros es. induction es as [| e es IH]; intros st Hrep Hall.
    - simpl. split; [lia |]. split; [lia | done].
    - inversion Hall as [| ? ? Hgt Hall']; subst.
      destruct (check_limit_fire e st Hrep Hgt) as (mails & Hn & Heq).
      destruct (notified_mails _ _ _ _ Hn) as (Hm & _ & Hle).
      simpl in Hm.
      unfold ticks. simpl.
      fold (ticks _check_limit es (tick _check_limit st e)).
      unfold tick. rewrite Heq. simpl.
      match goal with |- context [ticks _ es ?s] => set (st1 := s) end.
      assert (Hrep1 : reportable st1).
      { destruct Hrep as [Hs Hx]. unfold reportable, st1, limit_stats. simpl.
        destruct (notify_mails st);
          rewrite ?lookup_insert_ne by discriminate; split; assumption. }
      destruct (IH st1 Hrep1 Hall') as (H1 & H2 & H3).
      assert (Hsd : forall p, p = is_LogError \/ p = is_Mail ->
                length (List.filter p [shutdown st]) = 0%nat).
      { intros p [-> | ->]; unfold shutdown; destruct (spider st); reflexivity. }
      assert (Hc1 : count is_LogError st1 = S (count is_LogError st)).
      { unfold count, st1. simpl. rewrite List.filter_app, length_app. simpl.
        rewrite List.filter_app, length_app, Hle, Hsd by auto. simpl. lia. }
      assert (Hc2 : count is_Mail st1
                    = (count is_Mail st + one_if_recipients st)%nat).
      { unfold count, st1, one_if_recipients. simpl.
        rewrite List.filter_app, length_app. simpl.
        rewrite List.filter_app, length_app, Hm, Hsd by auto. lia. }
      rewrite H1, H2, Hc1, Hc2.
      replace (one_if_recipients st1) with (one_if_recipients st)
        by reflexivity.
      simpl. split; [lia |]. split; [lia |].
      intros _. destruct es as [| e' es']; [reflexivity |].
      rewrite H3 by discriminate.
      apply limit_stats_again; reflexivity. }
  destruct (Hgen es st Hrep Hall) as (H1 & H2 & H3).
  split; [exact H1 |]. split; [exact H2 |]. split; [exact H3 |].
  split.
  - intros Hne. rewrite (H3 Hne). unfold limit_stats.
    destruct (notify_mails st).
    + apply lookup_insert_eq.
    + rewrite lookup_insert_ne by discriminate. apply lookup_insert_eq.
  - intros Hne Hm. rewrite (H3 Hne). unfold limit_stats.
    destruct (notify_mails st); [done |]. apply lookup_insert_eq.
Qed.

Lemma check_limit_returns e st :
  reportable st ->
  exists st', _check_limit e st = (Return tt, st')
    /\ reportable st' /\ warning st' = warning st /\ warned st' = warned st.
Proof.
  intros Hrep. destruct (decide (get_virtual_size e > limit st)) as [Hgt | Hle].
  - destruct (check_limit_fire e st Hrep Hgt) as (mails & _ & Heq).
    eexists. split; [exact Heq |]. split; [| split; reflexivity].
    destruct Hrep as [Hs Hx]. unfold reportable, limit_stats. simpl.
    destruct (notify_mails st);
      rewrite ?lookup_insert_ne by discriminate; split; assumption.
  - unfold memusage._check_limit, bind, get, emit, modify. simpl.
    rewrite bool_decide_eq_false_2 by exact Hle.
    eexists. split; [reflexivity |]. split; [exact Hrep |].
    split; reflexivity.
Qed.

Lemma check_warning_returns e st :
  reportable st ->
  exists st', _check_warning e st = (Return tt, st') /\ reportable st'.
Proof.
  intros Hrep.
  destruct (warned st) eqn:Hw.
  { exists st. split; [apply check_warning_quiet; left; exact Hw | exact Hrep]. }
  destruct (decide (get_virtual_size e > warning st)) as [Hgt | Hle].
  - destruct (check_warning_fire e st Hrep Hw Hgt)
      as (stats' & mails & Hn & Heq).
    eexists. split; [exact Heq |].
    destruct Hrep as [Hs Hx]. unfold reportable. simpl.
    unfold notified in Hn. simpl in Hn.
    destruct (notify_mails st); destruct Hn as [-> _];
      rewrite ?lookup_insert_ne by discriminate; split; assumption.
  - exists st. split; [apply check_warning_quiet; right; exact Hle | exact Hrep].
Qed.

(** When the engine starts, the startup sample and the maximum are
    recorded before any check runs, so every later report can be written. *)
Lemma engine_started_reportable e st :
  exists st', engine_started e st = (Return tt, st') /\ reportable st'.
Proof.
  unfold memusage.engine_started.
  erewrite bind_Return by reflexivity.
  erewrite bind_Return by reflexivity.
  erewrite bind_Return by reflexivity.
  match goal with |- context [bind get _ ?s] => set (st1 := s) end.
  erewrite bind_Return by reflexivity.
  assert (Hrep1 : reportable st1).
  { unfold reportable, st1. simpl. split.
    - rewrite lookup_insert_ne by discriminate. rewrite lookup_insert_eq. eauto.
    - rewrite lookup_insert_eq. eauto. }
  assert (Hl : exists st2,
    (if bool_decide (limit st1 <> 0)
     then start_looping_call str_MiB TaskCheckLimit e else ret tt) st1
    = (Return tt, st2) /\ reportable st2).
  { destruct (bool_decide (limit st1 <> 0)); [| exists st1; auto].
    unfold start_looping_call.
    erewrite bind_Return by reflexivity.
    erewrite bind_Return by reflexivity.
    match goal with |- context [task_fn _ _ e ?s] =>
      destruct (check_limit_returns e s) as (st2 & Heq & Hrep2 & _)
    end; [exact Hrep1 |].
    exists st2. split; assumption. }
  destruct Hl as (st2 & Hl & Hrep2).
  rewrite (bind_Return _ _ st1 tt st2 Hl).
  erewrite bind_Return by reflexivity.
  destruct (bool_decide (warning st2 <> 0)); [| exists st2; auto].
  unfold start_looping_call.
  erewrite bind_Return by reflexivity.
  erewrite bind_Return by reflexivity.
  match goal with |- context [task_fn _ _ e ?s] =>
    destruct (check_warning_returns e s) as (st3 & Heq & Hrep3)
  end; [exact Hrep2 |].
  exists st3. split; assumption.
Qed.

(** C7: the sample is scaled by 1024 except on macOS: 2048 becomes
    2048 * 1024 on Linux and stays 2048 on macOS; and every function of
    the extension that reads the sample sees it only through
    [get_virtual_size]: two systems with the same normalized value (and
    the same host name and engine status) are the same to them. *)
Theorem get_virtual_size_normalizes :
  get_virtual_size (linux 2048) = 2048 * 1024
  /\ get_virtual_size (darwin 2048) = 2048
  /\ (forall e, sys_platform e <> "darwin" ->
        get_virtual_size e = ru_maxrss e * 1024)
  /\ (forall e, sys_platform e = "darwin" ->
        get_virtual_size e = ru_maxrss e)
  /\ (forall e e',
        get_virtual_size e = get_virtual_size e' ->
        hostname e = hostname e' -> engine_status e = engine_status e' ->
        update e = update e'
        /\ _check_limit e = _check_limit e'
        /\ _check_warning e = _check_warning e'
        /\ _send_report e = _send_report e'
        /\ engine_started e = engine_started e').
Proof.
  split; [reflexivity |]. split; [reflexivity |].
  split.
  { intros e H. unfold get_virtual_size.
    rewrite bool_decide_eq_false_2 by exact H. reflexivity. }
  split.
  { intros e H. unfold get_virtual_size.
    rewrite bool_decide_eq_true_2 by exact H. reflexivity. }
  intros e e' Hv Hh Hs.
  assert (Hsr : _send_report e = _send_report e').
  { unfold memusage._send_report. rewrite Hv, Hs. reflexivity. }
  assert (Hu : update e = update e').
  { unfold update. rewrite Hv. reflexivity. }
  assert (Hl : _check_limit e = _check_limit e').
  { unfold memusage._check_limit. rewrite Hv, Hh.
    change (memusage._send_report str_MiB e) with (_send_report e).
    rewrite Hsr. reflexivity. }
  assert (Hw : _check_warning e = _check_warning e').
  { unfold memusage._check_warning. rewrite Hv, Hh.
    change (memusage._send_report str_MiB e) with (_send_report e).
    rewrite Hsr. reflexivity. }
  split; [exact Hu |]. split; [exact Hl |]. split; [exact Hw |].
  split; [exact Hsr |].
  unfold memusage.engine_started, start_looping_call, task_fn.
  rewrite Hv, Hu.
  change (memusage._check_limit str_MiB e) with (_check_limit e).
  change (memusage._check_warning str_MiB e) with (_check_warning e).
  rewrite Hl, Hw. reflexivity.
Qed.

(** *** Frames of the three tasks *)

Lemma update_frame e st :
  exists mx, update e st
    = (Return tt,
       mkState (warned st) (notify_mails st) (limit st) (warning st)
         (check_interval st) (tasks st) (bot_name st)
         (<["memusage/max" := mx]> (stats st)) (spider st) (out st))
    /\ mx = Z.max (default (get_virtual_size e) (stats st !! "memusage/max"))
                  (get_virtual_size e).
Proof. eexists. split; reflexivity. Qed.

Lemma check_limit_frame e st :
  reportable st ->
  exists st', _check_limit e st = (Return tt, st')
    /\ reportable st' /\ warned st' = warned st /\ tasks st' = tasks st
    /\ limit st' = limit st /\ warning st' = warning st
    /\ stats st' !! "memusage/startup" = stats st !! "memusage/startup"
    /\ stats st' !! "memusage/max" = stats st !! "memusage/max"
    /\ count is_LogWarning st' = count is_LogWarning st.
Proof.
  intros Hrep. destruct (decide (get_virtual_size e > limit st)) as [Hgt | Hle].
  - destruct (check_limit_fire e st Hrep Hgt) as (mails & Hn & Heq).
    destruct (notified_mails _ _ _ _ Hn) as (_ & Hlw & _).
    eexists. split; [exact Heq |].
    assert (Hs : forall k, k = "memusage/startup" \/ k = "memusage/max" ->
              limit_stats st !! k = stats st !! k).
    { intros k Hk. unfold limit_stats.
      destruct (notify_mails st); destruct Hk as [-> | ->];
        rewrite ?lookup_insert_ne by discriminate; reflexivity. }
    split.
    { destruct Hrep as [H1 H2]. unfold reportable. simpl.
      rewrite !Hs by auto. split; assumption. }
    do 4 (split; [reflexivity |]). simpl.
    split; [apply Hs; auto |]. split; [apply Hs; auto |].
    unfold count. simpl. rewrite List.filter_app, length_app. simpl.
    rewrite List.filter_app, length_app, Hlw. unfold shutdown.
    destruct (spider st); simpl; lia.
  - unfold memusage._check_limit, bind, get, emit, modify. simpl.
    rewrite bool_decide_eq_false_2 by exact Hle.
    eexists. split; [reflexivity |]. split; [exact Hrep |].
    do 6 (split; [reflexivity |]).
    unfold count. simpl. rewrite List.filter_app, length_app. simpl. lia.
Qed.

Lemma check_warning_frame e st :
  reportable st ->
  exists st', _check_warning e st = (Return tt, st')
    /\ reportable st' /\ tasks st' = tasks st
    /\ limit st' = limit st /\ warning st' = warning st
    /\ stats st' !! "memusage/startup" = stats st !! "memusage/startup"
    /\ stats st' !! "memusage/max" = stats st !! "memusage/max"
    /\ warning_budget st' = warning_budget st.
Proof.
  intros Hrep.
  assert (Hquiet : warned st = true \/ ~ get_virtual_size e > warning st ->
            exists st', _check_warning e st = (Return tt, st')
              /\ reportable st' /\ tasks st' = tasks st
              /\ limit st' = limit st /\ warning st' = warning st
              /\ stats st' !! "memusage/startup"
                 = stats st !! "memusage/startup"
              /\ stats st' !! "memusage/max" = stats st !! "memusage/max"
              /\ warning_budget st' = warning_budget st).
  { intros H. exists st. rewrite (check_warning_quiet e st H).
    split; [reflexivity |]. split; [exact Hrep |].
    repeat (split; [reflexivity |]). reflexivity. }
  destruct (warned st) eqn:Hw; [apply Hquiet; left; reflexivity |].
  destruct (decide (get_virtual_size e > warning st)) as [Hgt | Hle];
    [| apply Hquiet; right; exact Hle].
  destruct (check_warning_fire e st Hrep Hw Hgt)
    as (stats' & mails & Hn & Heq).
  destruct (notified_mails _ _ _ _ Hn) as (_ & Hlw & _).
  eexists. split; [exact Heq |].
  assert (Hs : forall k, k = "memusage/startup" \/ k = "memusage/max" ->
            stats' !! k = stats st !! k).
  { intros k Hk. unfold notified in Hn. simpl in Hn.
    destruct (notify_mails st); destruct Hn as [-> _];
      destruct Hk as [-> | ->];
      rewrite ?lookup_insert_ne by discriminate; reflexivity. }
  split.
  { destruct Hrep as [H1 H2]. unfold reportable. simpl.
    rewrite !Hs by auto. split; assumption. }
  do 3 (split; [reflexivity |]). simpl.
  split; [apply Hs; auto |]. split; [apply Hs; auto |].
  unfold warning_budget, count. simpl. rewrite Hw.
  rewrite List.filter_app, length_app. simpl. rewrite Hlw. simpl. lia.
Qed.

(** One tick of any task on a state whose report can be written. *)
Lemma task_tick_frame t e st :
  reportable st ->
  exists st', task_fn str_MiB t e st = (Return tt, st')
    /\ reportable st' /\ tasks st' = tasks st
    /\ limit st' = limit st /\ warning st' = warning st
    /\ stats st' !! "memusage/startup" = stats st !! "memusage/startup"
    /\ warning_budget st' = warning_budget st.
Proof.
  intros Hrep. destruct t; simpl.
  - destruct (update_frame e st) as (mx & -> & _).
    eexists. split; [reflexivity |]. split.
    { destruct Hrep as [H1 H2]. unfold reportable. simpl.
      rewrite lookup_insert_ne by discriminate. rewrite lookup_insert_eq.
      split; [exact H1 | eauto]. }
    do 3 (split; [reflexivity |]). simpl.
    split; [apply lookup_insert_ne; discriminate | reflexivity].
  - destruct (check_limit_frame e st Hrep)
      as (st' & Heq & Hr & Hw & Ht & Hl & Hwa & Hs & _ & Hc).
    exists st'. split; [exact Heq |]. split; [exact Hr |].
    do 4 (split; [assumption |]).
    unfold warning_budget. rewrite Hc, Hw. reflexivity.
  - destruct (check_warning_frame e st Hrep)
      as (st' & Heq & Hr & Ht & Hl & Hwa & Hs & _ & Hb).
    exists st'. repeat (split; [assumption |]). exact Hb.
Qed.

(** *** Configuration and the life of a run *)



(** The run of [engine_started], task by task. *)
Lemma engine_started_runs e st :
  exists st', engine_started e st = (Return tt, st')
    /\ tasks st'
       = [mkLooping TaskUpdate true]
         ++ (if bool_decide (limit st <> 0)
             then [mkLooping TaskCheckLimit true] else [])
         ++ (if bool_decide (warning st <> 0)
             then [mkLooping TaskCheckWarning true] else [])
    /\ stats st' !! "memusage/startup" = Some (get_virtual_size e)
    /\ reportable st'.
Proof.
  unfold memusage.engine_started.
  erewrite bind_Return by reflexivity.
  erewrite bind_Return by reflexivity.
  erewrite bind_Return by reflexivity.
  match goal with |- context [bind get _ ?s] => set (st1 := s) end.
  erewrite bind_Return by reflexivity.
  assert (Hrep1 : reportable st1).
  { unfold reportable, st1. simpl. split.
    - rewrite lookup_insert_ne by discriminate. rewrite lookup_insert_eq. eauto.
    - rewrite lookup_insert_eq. eauto. }
  assert (Hs1 : stats st1 !! "memusage/startup" = Some (get_virtual_size e)).
  { unfold st1. simpl. rewrite lookup_insert_ne by discriminate.
    apply lookup_insert_eq. }
  change (limit st1) with (limit st).
  assert (Hl : exists st2,
    (if bool_decide (limit st <> 0)
     then start_looping_call str_MiB TaskCheckLimit e else ret tt) st1
    = (Return tt, st2) /\ reportable st2
    /\ tasks st2 = [mkLooping TaskUpdate true]
                    ++ (if bool_decide (limit st <> 0)
                        then [mkLooping TaskCheckLimit true] else [])
    /\ warning st2 = warning st
    /\ stats st2 !! "memusage/startup" = Some (get_virtual_size e)).
  { destruct (bool_decide (limit st <> 0)).
    - unfold start_looping_call.
      erewrite bind_Return by reflexivity.
      erewrite bind_Return by reflexivity.
      match goal with |- context [task_fn _ _ e ?s] =>
        destruct (task_tick_frame TaskCheckLimit e s)
          as (st2 & Heq & Hrep2 & Ht & _ & Hw & Hs & _)
      end; [exact Hrep1 |].
      exists st2. split; [exact Heq |]. split; [exact Hrep2 |].
      split; [exact Ht |]. split; [exact Hw |]. rewrite Hs. exact Hs1.
    - exists st1. repeat (split; [first [reflexivity | assumption] |]).
      exact Hs1. }
  destruct Hl as (st2 & Hl & Hrep2 & Ht2 & Hw2 & Hs2).
  rewrite (bind_Return _ _ st1 tt st2 Hl).
  erewrite bind_Return by reflexivity. rewrite Hw2.
  destruct (bool_decide (warning st <> 0)).
  - unfold start_looping_call.
    erewrite bind_Return by reflexivity.
    erewrite bind_Return by reflexivity.
    match goal with |- context [task_fn _ _ e ?s] =>
      destruct (task_tick_frame TaskCheckWarning e s)
        as (st3 & Heq & Hrep3 & Ht & _ & _ & Hs & _)
    end; [exact Hrep2 |].
    exists st3. split; [exact Heq |]. split.
    { rewrite Ht. simpl. rewrite Ht2, <- app_assoc. reflexivity. }
    split; [rewrite Hs; exact Hs2 | exact Hrep3].
  - exists st2. split; [reflexivity |]. split.
    { rewrite Ht2, app_nil_r. reflexivity. }
    split; assumption.
Qed.

(** X18: when the engine starts, the startup sample is recorded and the
    tasks are started in order, each running: always the update of the
    maximum, the limit check only for a nonzero limit, the warning check
    only for a nonzero warning threshold; the call returns and every later
    report can be written. *)
Theorem engine_started_tasks e st :
  exists st', engine_started e st = (Return tt, st')
    /\ tasks st'
       = [mkLooping TaskUpdate true]
         ++ (if bool_decide (limit st <> 0)
             then [mkLooping TaskCheckLimit true] else [])
         ++ (if bool_decide (warning st <> 0)
             then [mkLooping TaskCheckWarning true] else [])
    /\ stats st' !! "memusage/startup" = Some (get_virtual_size e)
    /\ reportable st'.
Proof.
  destruct (engine_started_runs e st) as (st' & Heq & Ht & Hs & Hrep).
  exists st'. split; [exact Heq |]. split; [exact Ht |].
  split; [exact Hs | exact Hrep].
Qed.

(** X19: when the engine stops after it started, every task that was
    started is stopped and none is lost; stopping again changes nothing;
    the statistics, the warned flag and the effects are left alone. *)
Theorem engine_stopped_stops_all e st0 :
  let st := snd (engine_started e st0) in
  let st1 := snd (engine_stopped st) in
  engine_stopped st = (Return tt, st1)
  /\ Forall (fun tsk => running tsk = true) (tasks st)
  /\ Forall (fun tsk => running tsk = false) (tasks st1)
  /\ map task_of (tasks st1) = map task_of (tasks st)
  /\ engine_stopped st1 = (Return tt, st1)
  /\ stats st1 = stats st /\ out st1 = out st /\ warned st1 = warned st.
Proof.
  intros st st1.
  destruct (engine_started_runs e st0) as (st' & Heq & Ht & _).
  assert (Hst : st = st') by (unfold st; rewrite Heq; reflexivity).
  split; [reflexivity |]. split.
  { rewrite Hst, Ht.
    destruct (bool_decide (limit st0 <> 0)),
      (bool_decide (warning st0 <> 0)); repeat constructor. }
  unfold st1, engine_stopped, bind, get, set_tasks, modify. simpl.
  generalize (tasks st) as ts. intros ts.
  split; [| split; [| split]].
  - induction ts as [| [t r] ts IH]; simpl; constructor; [| exact IH].
    destruct r; reflexivity.
  - induction ts as [| [t r] ts IH]; simpl; [reflexivity |].
    rewrite IH. destruct r; reflexivity.
  - do 2 f_equal. induction ts as [| [t r] ts IH]; simpl; [reflexivity |].
    rewrite IH. destruct r; reflexivity.
  - auto.
Qed.

Lemma update_tick_max e st :
  stats (tick update st e) !! "memusage/max"
  = Some (Z.max (default (get_virtual_size e) (stats st !! "memusage/max"))
            (get_virtual_size e))
  /\ out (tick update st e) = out st
  /\ (forall k, k <> "memusage/max" ->
        stats (tick update st e) !! k = stats st !! k).
Proof.
  unfold tick. destruct (update_frame e st) as (mx & -> & ->). simpl.
  split; [apply lookup_insert_eq |]. split; [reflexivity |].
  intros k Hk. apply lookup_insert_ne. congruence.
Qed.

Lemma update_ticks_from (es : list os) : forall st m,
  stats st !! "memusage/max" = Some m ->
  exists M, stats (ticks update es st) !! "memusage/max" = Some M
    /\ m <= M
    /\ Forall (fun e => get_virtual_size e <= M) es
    /\ (M = m \/ Exists (fun e => get_virtual_size e = M) es).
Proof.
  induction es as [| e es IH]; intros st m Hm.
  - exists m. split; [exact Hm |]. split; [lia |]. split; [constructor | auto].
  - destruct (update_tick_max e st) as (Hmax & _ & _).
    rewrite Hm in Hmax. simpl in Hmax.
    destruct (IH (tick update st e) _ Hmax) as (M & HM & Hle & Hall & Hor).
    exists M. split; [exact HM |]. split; [lia |]. split.
    + constructor; [lia |]. exact Hall.
    + destruct Hor as [-> | Hex]; [| right; right; exact Hex].
      destruct (Z.max_spec m (get_virtual_size e)) as [[_ ->] | [_ ->]];
        [right; left; reflexivity | left; reflexivity].
Qed.

(** X20: the update task keeps a running maximum: after any ticks the
    statistic [memusage/max] is the largest of the value it had and the
    samples of the ticks (the samples alone when it was missing); the task
    never lowers it, touches no other statistic and has no other effect. *)
Theorem update_running_max (es : list os) st :
  (forall m, stats st !! "memusage/max" = Some m ->
     exists M, stats (ticks update es st) !! "memusage/max" = Some M
       /\ m <= M
       /\ Forall (fun e => get_virtual_size e <= M) es
       /\ (M = m \/ Exists (fun e => get_virtual_size e = M) es))
  /\ (stats st !! "memusage/max" = None -> es <> [] ->
      exists M, stats (ticks update es st) !! "memusage/max" = Some M
        /\ Forall (fun e => get_virtual_size e <= M) es
        /\ Exists (fun e => get_virtual_size e = M) es)
  /\ out (ticks update es st) = out st
  /\ (forall k, k <> "memusage/max" ->
        stats (ticks update es st) !! k = stats st !! k).
Proof.
  split; [intros m Hm; apply update_ticks_from, Hm |]. split.
  - intros Hnone Hne. destruct es as [| e es]; [done |].
    destruct (update_tick_max e st) as (Hmax & _ & _).
    rewrite Hnone in Hmax. simpl in Hmax. rewrite Z.max_id in Hmax.
    destruct (update_ticks_from es (tick update st e) _ Hmax)
      as (M & HM & Hle & Hall & Hor).
    exists M. split; [exact HM |]. split; [constructor; assumption |].
    destruct Hor as [-> | Hex]; [left; reflexivity | right; exact Hex].
  - revert st. induction es as [| e es IH]; intros st; [auto |].
    destruct (update_tick_max e st) as (_ & Ho & Hk).
    destruct (IH (tick update st e)) as [Ho' Hk'].
    split; [exact (eq_trans Ho' Ho) |].
    intros k Hne. rewrite <- (Hk k Hne). apply Hk', Hne.
Qed.

(** X21: the comparison with the limit is strict.  A sample up to the
    limit only logs the usage; a sample above it ends with one request to
    end the crawl, as the last effect of the tick: closing the spider when
    one is open, stopping the crawler otherwise. *)
Theorem check_limit_shutdown e st :
  reportable st ->
  let st' := tick _check_limit st e in
  (get_virtual_size e <= limit st ->
     out st' = out st ++ [LogInfo (MiB (get_virtual_size e))]
     /\ stats st' = stats st
     /\ count is_shutdown st' = count is_shutdown st)
  /\ (get_virtual_size e > limit st ->
      last (out st')
      = Some (if spider st then CloseSpider "memusage_exceeded"
              else CrawlerStop)
      /\ count is_shutdown st' = S (count is_shutdown st)).
Proof.
  intros Hrep st'. split.
  - intros Hle. unfold st', tick, memusage._check_limit, bind, get, emit,
      modify. simpl.
    rewrite bool_decide_eq_false_2 by lia. simpl.
    split; [reflexivity |]. split; [reflexivity |].
    unfold count. simpl. rewrite List.filter_app, length_app. simpl. lia.
  - intros Hgt. unfold st', tick.
    destruct (check_limit_fire e st Hrep Hgt) as (mails & Hn & ->). simpl.
    split.
    + change (LogError (MiB (limit st)) :: mails ++ [shutdown st])
        with ((LogError (MiB (limit st)) :: mails) ++ [shutdown st]).
      rewrite app_assoc, last_snoc. reflexivity.
    + unfold count. simpl. rewrite List.filter_app, length_app. simpl.
      rewrite List.filter_app, length_app.
      assert (Hm : List.filter is_shutdown mails = []).
      { unfold notified in Hn. destruct (notify_mails _);
          [destruct Hn as [_ ->] | destruct Hn as [_ (sj & bd & ->)]];
          reflexivity. }
      rewrite Hm. unfold shutdown. destruct (spider st); simpl; lia.
Qed.

Lemma send_report_fails e rcpts subj st :
  stats st !! "memusage/startup" = None
  \/ stats st !! "memusage/max" = None ->
  _send_report e rcpts subj st
  = (Raise (TypeError "unsupported operand type(s) for /"), st).
Proof.
  intros Hmiss.
  unfold memusage._send_report, get_value, printed_MiB, bind, get, ret,
    raise. simpl.
  destruct Hmiss as [-> | Hx]; [reflexivity |].
  destruct (stats st !! "memusage/startup"); [| reflexivity].
  rewrite Hx. reflexivity.
Qed.

(** X22: when there are recipients and a statistic of the report is
    missing, a breach of the limit is logged and recorded, then the report
    raises [TypeError]: no mail is sent, [limit_notified] is not set, and
    the crawl is not asked to end. *)
Theorem limit_report_failure e st :
  notify_mails st <> [] ->
  stats st !! "memusage/startup" = None
  \/ stats st !! "memusage/max" = None ->
  get_virtual_size e > limit st ->
  exists msg,
    _check_limit e st
    = (Raise (TypeError msg),
       mkState (warned st) (notify_mails st) (limit st) (warning st)
         (check_interval st) (tasks st) (bot_name st)
         (<["memusage/limit_reached" := 1]> (stats st)) (spider st)
         (out st ++ [LogError (MiB (limit st))])).
Proof.
  intros Hm Hmiss Hgt.
  unfold memusage._check_limit, bind at 1, get. simpl.
  rewrite bool_decide_eq_true_2 by exact Hgt.
  destruct (notify_mails st) as [| rcpt rcpts] eqn:Hmails; [done |].
  erewrite bind_Return by reflexivity.
  erewrite bind_Return by reflexivity.
  match goal with
  | |- context [bind (bind (memusage._send_report _ ?e0 ?r ?sj) ?k1) ?k2 ?s1] =>
      assert (Hf : _send_report e0 r sj s1
                   = (Raise (TypeError "unsupported operand type(s) for /"),
                      s1))
  end.
  { apply send_report_fails. simpl.
    rewrite !lookup_insert_ne by discriminate. exact Hmiss. }
  eexists.
  rewrite (bind_Raise _ _ _ _ _ (bind_Raise _ _ _ _ _ Hf)).
  simpl. rewrite Hmails. reflexivity.
Qed.

(** X23: the warned flag is set only after the report was sent.  With
    recipients and a statistic of the report missing, every tick above the
    threshold logs the warning again and raises: over [n] such ticks there
    are [n] warnings, no mail, and the flag stays clear. *)
Theorem warning_repeats_without_report (es : list os) st :
  notify_mails st <> [] ->
  stats st !! "memusage/startup" = None
  \/ stats st !! "memusage/max" = None ->
  warned st = false ->
  Forall (fun e => get_virtual_size e > warning st) es ->
  let st' := ticks _check_warning es st in
  warned st' = false
  /\ count is_LogWarning st' = (count is_LogWarning st + length es)%nat
  /\ count is_Mail st' = count is_Mail st
  /\ (forall e, In e es -> exists msg,
        fst (_check_warning e st) = Raise (TypeError msg)).
Proof.
  intros Hm Hmiss Hw Hall.
  assert (Hone : forall e st,
    notify_mails st <> [] ->
    stats st !! "memusage/startup" = None
    \/ stats st !! "memusage/max" = None ->
    warned st = false -> get_virtual_size e > warning st ->
    exists msg,
      _check_warning e st
      = (Raise (TypeError msg),
         mkState false (notify_mails st) (limit st) (warning st)
           (check_interval st) (tasks st) (bot_name st)
           (<["memusage/warning_reached" := 1]> (stats st)) (spider st)
           (out st ++ [LogWarning (MiB (warning st))]))).
  { clear. intros e st Hm Hmiss Hw Hgt.
    unfold memusage._check_warning, bind at 1, get. simpl. rewrite Hw.
    rewrite bool_decide_eq_true_2 by exact Hgt.
    destruct (notify_mails st) as [| rcpt rcpts] eqn:Hmails; [done |].
    erewrite bind_Return by reflexivity.
    erewrite bind_Return by reflexivity.
    match goal with
    | |- context [bind (bind (memusage._send_report _ ?e0 ?r ?sj) ?k1) ?k2 ?s1] =>
        assert (Hf : _send_report e0 r sj s1
                     = (Raise (TypeError "unsupported operand type(s) for /"),
                        s1))
    end.
    { apply send_report_fails. simpl.
      rewrite !lookup_insert_ne by discriminate. exact Hmiss. }
    eexists.
    rewrite (bind_Raise _ _ _ _ _ (bind_Raise _ _ _ _ _ Hf)).
    simpl. rewrite Hmails, Hw. reflexivity. }
  intros st'.
  assert (Hgen : forall es st,
    notify_mails st <> [] ->
    stats st !! "memusage/startup" = None
    \/ stats st !! "memusage/max" = None ->
    warned st = false ->
    Forall (fun e => get_virtual_size e > warning st) es ->
    warned (ticks _check_warning es st) = false
    /\ count is_LogWarning (ticks _check_warning es st)
       = (count is_LogWarning st + length es)%nat
    /\ count is_Mail (ticks _check_warning es st) = count is_Mail st).
  { clear es st st' Hm Hmiss Hw Hall. intros es.
    induction es as [| e es IH]; intros st Hm Hmiss Hw Hall.
    - simpl. split; [exact Hw |]. split; [lia | reflexivity].
    - inversion Hall as [| ? ? Hgt Hall']; subst.
      destruct (Hone e st Hm Hmiss Hw Hgt) as [msg Heq].
      unfold ticks. simpl.
      fold (ticks _check_warning es (tick _check_warning st e)).
      unfold tick. rewrite Heq. simpl.
      match goal with |- context [ticks _ es ?s] =>
        destruct (IH s) as (H1 & H2 & H3)
      end; [exact Hm | | reflexivity | exact Hall' |].
      { simpl. rewrite !lookup_insert_ne by discriminate. exact Hmiss. }
      split; [exact H1 |]. rewrite H2, H3. unfold count. simpl.
      rewrite !List.filter_app, !length_app. simpl. split; lia. }
  destruct (Hgen es st Hm Hmiss Hw Hall) as (H1 & H2 & H3).
  split; [exact H1 |]. split; [exact H2 |]. split; [exact H3 |].
  intros e Hin. rewrite Forall_forall in Hall.
  destruct (Hone e st Hm Hmiss Hw) as [msg ->];
    [apply Hall, list_elem_of_In, Hin | eauto].
Qed.

Lemma task_ticks_frame (xs : list (task * os)) : forall st,
  reportable st ->
  reportable (task_ticks str_MiB xs st)
  /\ stats (task_ticks str_MiB xs st) !! "memusage/startup"
     = stats st !! "memusage/startup"
  /\ warning_budget (task_ticks str_MiB xs st) = warning_budget st.
Proof.
  induction xs as [| [t e] xs IH]; intros st Hrep; [auto |].
  unfold task_ticks in *. simpl.
  destruct (task_tick_frame t e st Hrep)
    as (st' & Heq & Hrep' & _ & _ & _ & Hs & Hb).
  assert (Ht : tick (task_fn str_MiB t) st e = st')
    by (unfold tick; rewrite Heq; reflexivity).
  rewrite Ht.
  destruct (IH st' Hrep') as (H1 & H2 & H3).
  split; [exact H1 |].
  split; [exact (eq_trans H2 Hs) | exact (eq_trans H3 Hb)].
Qed.

(** X24: once the engine has started, no tick raises: after any ticks of
    the three tasks in any order, with any samples, a tick of any task
    returns normally, the report can be written, and the startup sample is
    still the one recorded at the start. *)
Theorem ticks_never_raise e0 st0 (xs : list (task * os)) t e :
  let st := task_ticks str_MiB xs (snd (engine_started e0 st0)) in
  fst (task_fn str_MiB t e st) = Return tt
  /\ reportable st
  /\ stats st !! "memusage/startup" = Some (get_virtual_size e0).
Proof.
  intros st.
  destruct (engine_started_runs e0 st0) as (st1 & Heq & _ & Hs & Hrep).
  assert (Hst : st = task_ticks str_MiB xs st1)
    by (unfold st; rewrite Heq; reflexivity).
  destruct (task_ticks_frame xs st1 Hrep) as (Hrep' & Hs' & _).
  rewrite <- Hst in Hrep', Hs'.
  destruct (task_tick_frame t e st Hrep') as (st' & -> & _).
  split; [reflexivity |]. split; [exact Hrep' |]. congruence.
Qed.

Lemma task_ticks_warned (xs : list (task * os)) : forall st,
  reportable st -> warned st = true ->
  warned (task_ticks str_MiB xs st) = true.
Proof.
  induction xs as [| [t e] xs IH]; intros st Hrep Hw; [exact Hw |].
  unfold task_ticks in *. simpl.
  assert (Hstep : reportable (tick (task_fn str_MiB t) st e)
                  /\ warned (tick (task_fn str_MiB t) st e) = true).
  { unfold tick. destruct t; cbn [task_fn].
    - destruct (update_frame e st) as (mx & -> & _). simpl.
      split; [| exact Hw]. destruct Hrep as [H1 H2]. unfold reportable. simpl.
      rewrite lookup_insert_ne by discriminate. rewrite lookup_insert_eq.
      split; [exact H1 | eauto].
    - destruct (check_limit_frame e st Hrep) as (st' & -> & Hr & Hw' & _).
      simpl. split; [exact Hr | congruence].
    - rewrite check_warning_quiet by (left; exact Hw). simpl. auto. }
  destruct Hstep as [Hrep' Hw']. apply IH; assumption.
Qed.

(** X25: the warning is logged at most once in a run whatever else
    happens: over any ticks of the three tasks in any order, the number of
    warnings logged grows by one exactly when the warned flag goes from
    clear to set, and not at all once it is set. *)
Theorem one_warning_per_run (xs : list (task * os)) st :
  reportable st ->
  let st' := task_ticks str_MiB xs st in
  warning_budget st' = warning_budget st
  /\ (count is_LogWarning st'
      <= count is_LogWarning st + (if warned st then 0 else 1))%nat
  /\ (warned st = true ->
      warned st' = true /\ count is_LogWarning st' = count is_LogWarning st).
Proof.
  intros Hrep st'.
  destruct (task_ticks_frame xs st Hrep) as (_ & _ & Hb).
  fold st' in Hb. split; [exact Hb |].
  unfold warning_budget in Hb.
  split; [destruct (warned st'); lia |].
  intros Hw. pose proof (task_ticks_warned xs st Hrep Hw) as Hw'.
  fold st' in Hw'. rewrite Hw, Hw' in Hb. split; [exact Hw' | lia].
Qed.

End MemoryUsageFacts.

(** A monitor with recipients, a limit of 2 MiB and three ticks of the
    limit check at about 2.9 MiB. *)
Lemma limit_notified_on_every_tick :
  let st0 := memusage.sample_monitor ["ops@example.com"] in
  let st := memusage.ticks (memusage._check_limit memusage.sample_str_MiB)
              [memusage.linux 3000; memusage.linux 3000; memusage.linux 3000]
              st0 in
  memusage.limit st0 = 2 * 1024 * 1024
  /\ memusage.get_virtual_size (memusage.linux 3000) > memusage.limit st0
  /\ memusage.count memusage.is_LogError st0 = 0%nat
  /\ memusage.count memusage.is_LogError st = 3%nat
  /\ memusage.count memusage.is_Mail st = 3%nat.
Proof.
  vm_compute. repeat split.
Defined.

Lemma sample_monitor_reportable mails :
  memusage.reportable (memusage.sample_monitor mails).
Proof.
  unfold memusage.sample_monitor. cbn -[memusage.engine_started].
  match goal with |- context [memusage.engine_started ?f ?e ?s] =>
    destruct (engine_started_reportable f e s) as (st' & -> & Hrep)
  end.
  exact Hrep.
Qed.

Lemma limit_every_tick_witness :
  let st0 := memusage.sample_monitor ["ops@example.com"] in
  let es := [memusage.linux 3000; memusage.linux 4000] in
  memusage.reportable st0
  /\ Forall (fun e => memusage.get_virtual_size e > memusage.limit st0) es
  /\ memusage.count memusage.is_LogError
       (memusage.ticks (memusage._check_limit memusage.sample_str_MiB) es st0)
     = 2%nat.
Proof.
  intros st0 es.
  assert (Hrep : memusage.reportable st0)
    by (split; eexists; vm_compute; reflexivity).
  assert (Hall : Forall (fun e => memusage.get_virtual_size e
                                  > memusage.limit st0) es)
    by (repeat constructor).
  split; [exact Hrep |]. split; [exact Hall |].
  exact (proj1 (limit_every_tick memusage.sample_str_MiB st0 es Hrep Hall)).
Defined.

Lemma warning_once_witness :
  let st0 := memusage.sample_monitor ["ops@example.com"] in
  let es := [memusage.linux 100; memusage.linux 900; memusage.linux 1100;
             memusage.linux 1200; memusage.linux 1300] in
  let st := memusage.ticks (memusage._check_warning memusage.sample_str_MiB)
              es st0 in
  memusage.reportable st0
  /\ memusage.warned st0 = false
  /\ memusage.warned st = true
  /\ memusage.count memusage.is_LogWarning st = 1%nat
  /\ memusage.count memusage.is_Mail st = 1%nat.
Proof.
  intros st0 es st.
  assert (Hrep : memusage.reportable st0)
    by (split; eexists; vm_compute; reflexivity).
  assert (Hex : Exists (fun e => memusage.get_virtual_size e
                                 > memusage.warning st0) es)
    by (do 2 right; left; reflexivity).
  split; [exact Hrep |]. split; [reflexivity |].
  exact (proj1 (proj2 (proj2 (warning_once memusage.sample_str_MiB st0 Hrep)))
           es eq_refl Hex).
Defined.

Lemma get_virtual_size_normalizes_witness :
  memusage.get_virtual_size (memusage.linux 1)
  = memusage.get_virtual_size (memusage.darwin 1024)
  /\ memusage._check_limit memusage.sample_str_MiB (memusage.linux 1)
     = memusage._check_limit memusage.sample_str_MiB (memusage.darwin 1024).
Proof.
  split; [reflexivity |].
  destruct (get_virtual_size_normalizes memusage.sample_str_MiB)
    as (_ & _ & _ & _ & Hsame).
  destruct (Hsame (memusage.linux 1) (memusage.darwin 1024)
              eq_refl eq_refl eq_refl) as (_ & Hl & _).
  exact Hl.
Defined.

(** ** Instances of the further properties *)

Lemma listen_tcp_first_free_witness :
  listen.listen_tcp unit (listen.listenTCP_on [8000; 8001; 8002])
    [8000; 8010] "127.0.0.1" tt
  = ([8000; 8001; 8002; 8003],
     Return (Some (listen.mkPort 8003 "127.0.0.1"))).
Proof.
  apply (listen_tcp_first_free (listen.listenTCP_on [8000; 8001; 8002])
           "127.0.0.1" tt 8000 8010 8003 (listen.mkPort 8003 "127.0.0.1"));
    [lia | | reflexivity].
  intros y Hy. exists "127.0.0.1", y. unfold listen.listenTCP_on.
  destruct (decide (y = 0)); [lia |].
  destruct (decide (y ∈ [8000; 8001; 8002])) as [_ | Hn]; [reflexivity |].
  exfalso. apply Hn.
  assert (Hc : y = 8000 \/ y = 8001 \/ y = 8002) by lia.
  destruct Hc as [-> | [-> | ->]]; repeat constructor.
Defined.

Lemma listen_tcp_other_error_witness :
  listen.listen_tcp unit (listen.listenTCP_checked [65535]) [65535; 65540]
    "127.0.0.1" tt
  = ([65535; 65536], Raise (OtherError "OverflowError")).
Proof.
  apply (listen_tcp_other_error (listen.listenTCP_checked [65535])
           "127.0.0.1" tt 65535 65540 65536 (OtherError "OverflowError"));
    [lia | | reflexivity | discriminate].
  intros y Hy. assert (y = 65535) as -> by lia.
  exists "127.0.0.1", 65535. reflexivity.
Defined.

Lemma listen_tcp_all_refused_witness :
  exists i q,
    listen.listen_tcp unit (listen.listenTCP_on [8000; 8001; 8002])
      [8000; 8002] "127.0.0.1" tt
    = ([8000; 8001; 8002], Raise (CannotListenError i q)).
Proof.
  destruct (listen_tcp_all_refused (listen.listenTCP_on [8000; 8001; 8002])
              "127.0.0.1" tt 8000 8002) as (i & q & _ & H); [lia | |].
  - intros y Hy. exists "127.0.0.1", y. unfold listen.listenTCP_on.
    destruct (decide (y = 0)); [lia |].
    destruct (decide (y ∈ [8000; 8001; 8002])) as [_ | Hn]; [reflexivity |].
    exfalso. apply Hn.
    assert (Hc : y = 8000 \/ y = 8001 \/ y = 8002) by lia.
    destruct Hc as [-> | [-> | ->]]; repeat constructor.
  - exists i, q. exact H.
Defined.

Lemma at_most_one_pending_witness :
  let evs := [once.EvWait; once.EvSchedule 3; once.EvSchedule 1;
              once.EvReactor; once.EvSchedule 2; once.EvCancel;
              once.EvReactor] in
  Nat.le
    (length (once.self_calls
               (once.run evs (once.__init__ once.sample_func 7 tt 100))))
    1.
Proof.
  intros evs.
  assert (Hco : once.coalesced (once.__init__ once.sample_func 7 tt 100))
    by (split; [constructor | reflexivity]).
  assert (Hevs : Forall (fun ev => ev <> once.EvCall) evs)
    by (repeat constructor; discriminate).
  exact (proj1 (proj2 (at_most_one_pending _ evs Hco Hevs))).
Defined.


Lemma cancel_strands_waiters_witness :
  let evs := [once.EvWait; once.EvSchedule 1; once.EvReactor; once.EvWait] in
  once.resolved
    (once.run evs (once.cancel (once.schedule 3
       (once.__init__ once.sample_func 7 tt 100))))
  = [].
Proof.
  intros evs.
  assert (Hevs : Forall (fun ev => ev <> once.EvCall) evs)
    by (repeat constructor; discriminate).
  exact (proj1 (proj2 (cancel_strands_waiters
           (once.__init__ once.sample_func 7 tt 100) 3 evs
           eq_refl eq_refl Hevs))).
Defined.

Lemma schedule_again_after_firing_witness :
  once.calls
    (once.run
       (flat_map (fun d => [once.EvSchedule d; once.EvReactor]) [3; 0; 5])
       (once.__init__ once.quiet_func 7 tt 100))
  = [(7, tt); (7, tt); (7, tt)].
Proof.
  exact (proj1 (schedule_again_after_firing once.quiet_func 7 tt 100
                  [3; 0; 5] (fun n a kw => eq_refl))).
Defined.

Lemma direct_call_keeps_pending_witness :
  once.self_calls
    (once.run [once.EvSchedule 3; once.EvCall; once.EvSchedule 4]
       (once.__init__ once.sample_func 0 tt 100))
  = [once.mkDelayed 0 103 once.CallSelf; once.mkDelayed 1 104 once.CallSelf].
Proof.
  assert (Hidle : once.idle (once.__init__ once.sample_func 0 tt 100))
    by (split; reflexivity).
  exact (proj2 (proj2 (proj2 (direct_call_keeps_pending
           (once.__init__ once.sample_func 0 tt 100) 3 4 Hidle eq_refl)))).
Defined.

Lemma installer_path_witness :
  install.join_dot
    (removelast
       (install.split_dot "twisted.internet.selectreactor.SelectReactor")
     ++ ["install"])
  = "twisted.internet.selectreactor.install".
Proof.
  exact (proj1 (proj2 (installer_path "twisted.internet.selectreactor"
                         "SelectReactor" eq_refl))).
Defined.

Lemma event_loop_resolved_witness :
  exists el w1,
    install.set_asyncio_event_loop install.sample_load_object
      install.sample_issubclass install.sample_policy_loop_class false
      (Some "uvloop.Loop") install.fresh_world
    = (Return el, w1)
    /\ install.current_loop w1 = Some el
    /\ install.sample_issubclass (install.loop_class el) install.UvLoop
       = true.
Proof.
  assert (Hrefl : forall c, install.sample_issubclass c c = true)
    by (intros c; apply bool_decide_eq_true_2; reflexivity).
  destruct (proj2 (event_loop_resolved install.sample_load_object
                     install.sample_issubclass
                     install.sample_policy_loop_class false Hrefl)
              "uvloop.Loop" install.UvLoop install.fresh_world eq_refl)
    as (el & w1 & H1 & H2 & H3 & _).
  exists el, w1. split; [exact H1 |]. split; [exact H2 | exact H3].
Defined.

Lemma installed_reactor_stays_witness :
  let w := snd (install.install_reactor install.sample_load_object
                  install.sample_issubclass install.sample_policy_loop_class
                  true "twisted.internet.selectreactor.SelectReactor" None
                  install.fresh_world) in
  install.installed w = Some (install.mkReactor install.SelectReactor None)
  /\ install.installed
       (snd (install.install_reactor install.sample_load_object
               install.sample_issubclass install.sample_policy_loop_class
               true "twisted.internet.asyncioreactor.AsyncioSelectorReactor"
               (Some "uvloop.Loop") w))
     = Some (install.mkReactor install.SelectReactor None).
Proof.
  intros w.
  assert (Hrefl : forall c, install.sample_issubclass c c = true)
    by (intros c; apply bool_decide_eq_true_2; reflexivity).
  assert (Hi : install.installed w
               = Some (install.mkReactor install.SelectReactor None))
    by reflexivity.
  split; [exact Hi |].
  exact (installed_reactor_stays install.sample_load_object
           install.sample_issubclass install.sample_policy_loop_class true
           Hrefl _ _ w _ Hi).
Defined.

Lemma other_reactor_leaves_loop_witness :
  install.install_reactor install.sample_load_object
    install.sample_issubclass install.sample_policy_loop_class true
    "twisted.internet.selectreactor.SelectReactor" (Some "uvloop.Loop")
    install.fresh_world
  = install.install_reactor install.sample_load_object
      install.sample_issubclass install.sample_policy_loop_class true
      "twisted.internet.selectreactor.SelectReactor" None install.fresh_world.
Proof.
  exact (proj1 (other_reactor_leaves_loop install.sample_load_object
                  install.sample_issubclass install.sample_policy_loop_class
                  true "twisted.internet.selectreactor.SelectReactor"
                  (Some "uvloop.Loop") None install.fresh_world
                  (install.PyClass install.SelectReactor) eq_refl
                  ltac:(discriminate))).
Defined.

Lemma install_then_verify_witness :
  let w1 := snd (install.install_reactor install.sample_load_object
                   install.sample_issubclass install.sample_policy_loop_class
                   false
                   "twisted.internet.asyncioreactor.AsyncioSelectorReactor"
                   (Some "uvloop.Loop") install.fresh_world) in
  install.verify_installed_asyncio_event_loop install.sample_load_object
    install.sample_issubclass "uvloop.Loop" w1
  = (Return tt, w1).
Proof.
  intros w1.
  assert (Hrefl : forall c, install.sample_issubclass c c = true)
    by (intros c; apply bool_decide_eq_true_2; reflexivity).
  destruct (install_then_verify install.sample_load_object
              install.sample_issubclass install.sample_policy_loop_class
              false Hrefl
              "twisted.internet.asyncioreactor.AsyncioSelectorReactor"
              (Some "uvloop.Loop") install.fresh_world w1
              eq_refl eq_refl)
    as (el & _ & _ & _ & _ & Hv).
  - intros p [= <-]. eexists. reflexivity.
  - reflexivity.
  - exact (Hv "uvloop.Loop" eq_refl).
Defined.

Lemma check_limit_shutdown_witness :
  last (memusage.out
          (memusage.tick (memusage._check_limit memusage.sample_str_MiB)
             (memusage.sample_monitor []) (memusage.linux 3000)))
  = Some (memusage.CloseSpider "memusage_exceeded").
Proof.
  assert (Hrep : memusage.reportable (memusage.sample_monitor []))
    by (split; eexists; vm_compute; reflexivity).
  exact (proj1 (proj2 (check_limit_shutdown memusage.sample_str_MiB
                         (memusage.linux 3000) (memusage.sample_monitor [])
                         Hrep) ltac:(vm_compute; reflexivity))).
Defined.

Lemma limit_report_failure_witness :
  exists msg,
    fst (memusage._check_limit memusage.sample_str_MiB (memusage.linux 3000)
           (memusage.sample_unstarted ["ops@example.com"]))
    = Raise (TypeError msg).
Proof.
  destruct (limit_report_failure memusage.sample_str_MiB
              (memusage.linux 3000)
              (memusage.sample_unstarted ["ops@example.com"]))
    as [msg H]; [discriminate | left; reflexivity | reflexivity |].
  exists msg. rewrite H. reflexivity.
Defined.

Lemma warning_repeats_without_report_witness :
  memusage.count memusage.is_LogWarning
    (memusage.ticks (memusage._check_warning memusage.sample_str_MiB)
       [memusage.linux 2000; memusage.linux 2500]
       (memusage.sample_unstarted ["ops@example.com"]))
  = 2%nat.
Proof.
  exact (proj1 (proj2 (warning_repeats_without_report
           memusage.sample_str_MiB
           [memusage.linux 2000; memusage.linux 2500]
           (memusage.sample_unstarted ["ops@example.com"])
           ltac:(discriminate) (or_introl eq_refl) eq_refl
           ltac:(repeat constructor)))).
Defined.

Lemma one_warning_per_run_witness :
  Nat.le
    (memusage.count memusage.is_LogWarning
       (memusage.task_ticks memusage.sample_str_MiB
          [(memusage.TaskCheckWarning, memusage.linux 1500);
           (memusage.TaskUpdate, memusage.linux 1500);
           (memusage.TaskCheckLimit, memusage.linux 3000);
           (memusage.TaskCheckWarning, memusage.linux 3000)]
          (memusage.sample_monitor ["ops@example.com"])))
    1.
Proof.
  assert (Hrep : memusage.reportable
                   (memusage.sample_monitor ["ops@example.com"]))
    by (split; eexists; vm_compute; reflexivity).
  exact (proj1 (proj2 (one_warning_per_run memusage.sample_str_MiB _ _ Hrep))).
Defined.

Lemma other_reactor_installed_witness :
  exists w1,
    install.install_reactor install.sample_load_object
      install.sample_issubclass install.sample_policy_loop_class true
      "twisted.internet.selectreactor.SelectReactor" None install.fresh_world
    = (Return tt, w1)
    /\ install.is_asyncio_reactor_installed install.sample_issubclass w1
       = (Return false, w1).
Proof.
  destruct (other_reactor_installed install.sample_load_object
              install.sample_issubclass install.sample_policy_loop_class true
              "twisted.internet.selectreactor.SelectReactor" None
              install.fresh_world (install.PyClass install.SelectReactor)
              install.SelectReactor eq_refl ltac:(discriminate) eq_refl
              eq_refl) as (w1 & H1 & _ & H3 & _).
  exists w1. split; [exact H1 | exact H3].
Defined.

Lemma policy_after_install_witness :
  install.event_loop_policy
    (snd (install.install_reactor install.sample_load_object
            install.sample_issubclass install.sample_policy_loop_class false
            "twisted.internet.asyncioreactor.AsyncioSelectorReactor" None
            (install.mkWorld "win32" install.DefaultPolicy None 0 None)))
  = install.WindowsSelectorEventLoopPolicy.
Proof.
  assert (Hrefl : forall c, install.sample_issubclass c c = true)
    by (intros c; apply bool_decide_eq_true_2; reflexivity).
  exact (proj2 (proj2 (policy_after_install install.sample_load_object
           install.sample_issubclass install.sample_policy_loop_class false
           Hrefl "twisted.internet.asyncioreactor.AsyncioSelectorReactor"
           None (install.mkWorld "win32" install.DefaultPolicy None 0 None)))
           eq_refl eq_refl).
Defined.
